(** * objectbox-go generator: the binding model of [internal/generator/binding.go]

    A shallow embedding of the entity/property discovery pass: the annotation
    parser ([setAnnotations]), the type resolver ([setType]), the flag deriver
    ([setObFlags], [setIndex]), the entity builder ([createEntityFromAst]),
    the tree-walk callback ([entityLoader], [createFromAst]) and the
    FlatBuffers layout queries ([FbSlot], [FbvTableOffset]).

    Go strings are byte sequences and are modelled by [string] (a list of
    8-bit [ascii] bytes).  Go maps with string keys are [gmap string _], the
    [map[string]bool] used as a set is a [gset string], fixed-width integers
    are [Z] with the wrap-around written out, and every [fmt.Errorf] call
    site is a constructor of [Error]. *)

From Stdlib Require Import ZArith Ascii String.
From stdpp Require Import base option list gmap strings.

Open Scope Z_scope.

(** ** Go's [strings] package *)

Module GoStr.

(** The double quote byte, 0x22. *)
Definition dquote : ascii := "034"%char.

(** [len(s)], [s[i]] and [s[lo:hi]] on byte strings. *)
Definition len (s : string) : nat := String.length s.
Definition at_ (s : string) (i : nat) : option ascii := String.get i s.
Definition slice (s : string) (lo hi : nat) : string :=
  String.substring lo (hi - lo) s.
Definition sliceFrom (s : string) (lo : nat) : string :=
  String.substring lo (String.length s - lo) s.

(** [strings.Split(s, sep)] for a one-byte separator: the pieces between
    the separators, [n + 1] of them when [sep] occurs [n] times. *)
Fixpoint Split (s : string) (sep : ascii) : list string :=
  match s with
  | EmptyString => [EmptyString]
  | String c s' =>
      if decide (c = sep) then EmptyString :: Split s' sep
      else match Split s' sep with
           | w :: ws => String c w :: ws
           | [] => [String c EmptyString]
           end
  end.

(** [strings.IndexRune(s, r)] for a rune below [utf8.RuneSelf]: the index
    of the first byte equal to [r]; [None] stands for Go's [-1]. *)
Fixpoint IndexRune (s : string) (r : ascii) : option nat :=
  match s with
  | EmptyString => None
  | String c s' => if decide (c = r) then Some 0%nat else S <$> IndexRune s' r
  end.

(** Bytes below [utf8.RuneSelf] (0x80). *)
Definition isASCIIByte (c : ascii) : bool :=
  match c with Ascii _ _ _ _ _ _ _ b7 => negb b7 end.

Fixpoint isASCII (s : string) : bool :=
  match s with
  | EmptyString => true
  | String c s' => isASCIIByte c && isASCII s'
  end.

(** The ASCII fast path of [strings.ToLower]: ['A'..'Z'] are shifted by
    ['a' - 'A'], every other byte is kept. *)
Definition lowerByte (c : ascii) : ascii :=
  let n := nat_of_ascii c in
  if ((65 <=? n) && (n <=? 90))%nat then ascii_of_nat (n + 32) else c.

Fixpoint asciiToLower (s : string) : string :=
  match s with
  | EmptyString => EmptyString
  | String c s' => String (lowerByte c) (asciiToLower s')
  end.

(** The [asciiSpace] table of [strings.TrimSpace]:
    ['\t'], ['\n'], ['\v'], ['\f'], ['\r'] and [' ']. *)
Definition asciiSpace (c : ascii) : bool :=
  let n := nat_of_ascii c in
  ((9 <=? n) && (n <=? 13) || (n =? 32))%nat.

Fixpoint trimLeft (s : string) : string :=
  match s with
  | EmptyString => EmptyString
  | String c s' => if asciiSpace c then trimLeft s' else s
  end.

Fixpoint trimRight (s : string) : string :=
  match s with
  | EmptyString => EmptyString
  | String c s' =>
      match trimRight s' with
      | EmptyString => if asciiSpace c then EmptyString else String c EmptyString
      | t => String c t
      end
  end.

Definition asciiTrimSpace (s : string) : string := trimRight (trimLeft s).

End GoStr.

(** [strings.ToLower] and [strings.TrimSpace] decode UTF-8 and consult the
    Unicode tables, which are no part of this repository.  The development
    is parametric in them and only relies on what Go guarantees for text
    that is pure ASCII, where both functions take their byte-wise fast path. *)
Class GoStrings := {
  ToLower : string → string;
  TrimSpace : string → string;
  ToLower_ascii : ∀ s, GoStr.isASCII s = true → ToLower s = GoStr.asciiToLower s;
  TrimSpace_ascii : ∀ s, GoStr.isASCII s = true → TrimSpace s = GoStr.asciiTrimSpace s
}.

(** The byte-wise functions themselves form an instance; it is the one used
    to run the model on concrete (ASCII) inputs. *)
Definition AsciiStrings : GoStrings := {|
  ToLower := GoStr.asciiToLower;
  TrimSpace := GoStr.asciiTrimSpace;
  ToLower_ascii := λ _ _, eq_refl;
  TrimSpace_ascii := λ _ _, eq_refl
|}.

(** ** Errors

    One constructor per [fmt.Errorf] call site of binding.go, carrying the
    values that are formatted into the message. *)
Inductive Error :=
  | ErrUnnamedStruct
      (* "encountered a struct without a name" *)
  | ErrInvalidNames (entity : string) (n : nat)
      (* "struct %s has a f with an invalid number of names, one expected, got %v" *)
  | ErrOnProperty (err : Error) (property entity : string)
      (* propertyError: "%s on property %s, entity %s" *)
  | ErrMultipleId (entity first second : string)
      (* "struct %s has multiple ID properties - %s and %s" *)
  | ErrNameInDbEmpty
      (* "nameInDb annotation value must not be empty" *)
  | ErrDuplicateName
      (* "duplicate name (note that property names are case insensitive)" *)
  | ErrNoProperties (entity : string)
      (* "there are no properties in the entity %s" *)
  | ErrIdAmbiguous (entity : string)
      (* "id field is missing on entity %s - annotate a field with `id` tag" *)
  | ErrIdMissing (entity : string)
      (* "id field is missing on entity %s - either annotate a field with `id` tag
         or use a uint64 field named 'Id/id/ID'" *)
  | ErrInvalidAnnotationValue (tag name : string)
      (* "invalid annotation value %s for %s, expecting `name:\"value\"` format" *)
  | ErrDuplicateAnnotation (name : string)
      (* "duplicate annotation %s" *)
  | ErrUnknownType (ts : string)
      (* "unknown type %s" *)
  | ErrInvalidDateType (obType : string)
      (* "invalid underlying type (%s) for date field" *)
  | ErrInvalidRelationType (obType : string)
      (* "invalid underlying type (%s) for relation field" *)
  | ErrIndexAlreadyDefined
      (* "index is already defined" *)
  | ErrUnknownIndexType (value : string)
      (* "unknown index type %s" *)
  | ErrVTableOffset (property : string) (id : Z)
      (* "can't calculate FlatBuffers VTableOffset: property %s ID %d is too large" *).

(** A Go function returning [error]: the updated receiver, or the error. *)
Inductive result (A : Type) :=
  | Ok (a : A)
  | Err (e : Error).
Arguments Ok {A} a.
Arguments Err {A} e.

Global Instance result_bind : MBind result := λ A B k m,
  match m with
  | Ok a => k a
  | Err e => Err e
  end.

(** ** Data model *)

Record Annotation := { Value : string }.
Record Relation := { Target : string }.
Record Index := { IndexId : Z; IndexUid : Z }.

Record Property := {
  Name : string;
  ObName : string;
  Id : Z;                                   (* uint32 *)
  Uid : Z;                                  (* uint64 *)
  Annotations : gmap string Annotation;     (* a nil map reads as the empty map *)
  ObType : string;
  ObFlags : list string;
  GoType : string;
  FbType : string;
  PRelation : option Relation;               (* Relation *Relation *)
  PIndex : option Index;                     (* Index *Index *)
  entityName : string                        (* entity.Name, through the parent link *)
}.

Definition withObName (p : Property) (v : string) : Property :=
  {| Name := Name p; ObName := v; Id := Id p; Uid := Uid p;
     Annotations := Annotations p; ObType := ObType p; ObFlags := ObFlags p;
     GoType := GoType p; FbType := FbType p; PRelation := PRelation p;
     PIndex := PIndex p; entityName := entityName p |}.

Definition withAnnotations (p : Property) (v : gmap string Annotation) : Property :=
  {| Name := Name p; ObName := ObName p; Id := Id p; Uid := Uid p;
     Annotations := v; ObType := ObType p; ObFlags := ObFlags p;
     GoType := GoType p; FbType := FbType p; PRelation := PRelation p;
     PIndex := PIndex p; entityName := entityName p |}.

Definition withGoType (p : Property) (v : string) : Property :=
  {| Name := Name p; ObName := ObName p; Id := Id p; Uid := Uid p;
     Annotations := Annotations p; ObType := ObType p; ObFlags := ObFlags p;
     GoType := v; FbType := FbType p; PRelation := PRelation p;
     PIndex := PIndex p; entityName := entityName p |}.

Definition withObType (p : Property) (v : string) : Property :=
  {| Name := Name p; ObName := ObName p; Id := Id p; Uid := Uid p;
     Annotations := Annotations p; ObType := v; ObFlags := ObFlags p;
     GoType := GoType p; FbType := FbType p; PRelation := PRelation p;
     PIndex := PIndex p; entityName := entityName p |}.

Definition withFbType (p : Property) (v : string) : Property :=
  {| Name := Name p; ObName := ObName p; Id := Id p; Uid := Uid p;
     Annotations := Annotations p; ObType := ObType p; ObFlags := ObFlags p;
     GoType := GoType p; FbType := v; PRelation := PRelation p;
     PIndex := PIndex p; entityName := entityName p |}.

Definition withObFlags (p : Property) (v : list string) : Property :=
  {| Name := Name p; ObName := ObName p; Id := Id p; Uid := Uid p;
     Annotations := Annotations p; ObType := ObType p; ObFlags := v;
     GoType := GoType p; FbType := FbType p; PRelation := PRelation p;
     PIndex := PIndex p; entityName := entityName p |}.

Definition withRelation (p : Property) (v : option Relation) : Property :=
  {| Name := Name p; ObName := ObName p; Id := Id p; Uid := Uid p;
     Annotations := Annotations p; ObType := ObType p; ObFlags := ObFlags p;
     GoType := GoType p; FbType := FbType p; PRelation := v;
     PIndex := PIndex p; entityName := entityName p |}.

Definition withIndex (p : Property) (v : option Index) : Property :=
  {| Name := Name p; ObName := ObName p; Id := Id p; Uid := Uid p;
     Annotations := Annotations p; ObType := ObType p; ObFlags := ObFlags p;
     GoType := GoType p; FbType := FbType p; PRelation := PRelation p;
     PIndex := v; entityName := entityName p |}.

(** [&Property{entity: entity, Name: name}]: every other field is zero. *)
Definition newProperty (entity name : string) : Property :=
  {| Name := name; ObName := ""; Id := 0; Uid := 0; Annotations := ∅;
     ObType := ""; ObFlags := []; GoType := ""; FbType := "";
     PRelation := None; PIndex := None; entityName := entity |}.

(** [property.Annotations[key] != nil] *)
Definition hasAnnotation (p : Property) (key : string) : bool :=
  bool_decide (is_Some (Annotations p !! key)).

(** ** FlatBuffers layout queries *)

Definition uint32 (z : Z) : Z := z mod 2 ^ 32.
Definition uint16 (z : Z) : Z := z mod 2 ^ 16.
(** Go's [int] on the 64-bit targets the generator is built for. *)
Definition int (z : Z) : Z := (z + 2 ^ 63) mod 2 ^ 64 - 2 ^ 63.

(** [int(property.Id - 1)], the subtraction being a [uint32] one. *)
Definition FbSlot (property : Property) : Z :=
  int (uint32 (Id property - 1)).

(** [Err] stands for the [panic]. *)
Definition FbvTableOffset (property : Property) : result Z :=
  let result := uint32 (4 + 2 * uint32 (FbSlot property)) in
  if negb (uint32 (uint16 result) =? result)
  then Err (ErrVTableOffset (Name property) (Id property))
  else Ok (uint16 result).

(** ** Annotation parser *)

Section Generator.
Context {GS : GoStrings}.

(** The body of [for _, tag := range strings.Split(tags, " ")], [m] being
    [property.Annotations]. *)
Fixpoint annotationLoop (m : gmap string Annotation) (tokens : list string)
  : result (gmap string Annotation) :=
  match tokens with
  | [] => Ok m
  | tag :: rest =>
      if (0 <? GoStr.len tag)%nat then
        nv ← match GoStr.IndexRune tag ":" with
             | Some i =>
                 let name := GoStr.slice tag 0 i in
                 let tag := GoStr.sliceFrom tag (i + 1) in
                 if (1 <? GoStr.len tag)%nat
                    && bool_decide (GoStr.at_ tag 0 = GoStr.at_ tag (GoStr.len tag - 1))
                    && bool_decide (GoStr.at_ tag 0 = Some GoStr.dquote)
                 then Ok (name, {| Value := TrimSpace (GoStr.slice tag 1 (GoStr.len tag - 1)) |})
                 else Err (ErrInvalidAnnotationValue tag name)
             | None => Ok (tag, {| Value := "" |})
             end;
        let name := ToLower nv.1 in
        match m !! name with
        | Some _ => Err (ErrDuplicateAnnotation name)
        | None => annotationLoop (<[name := nv.2]> m) rest
        end
      else annotationLoop m rest
  end.

Definition setAnnotations (property : Property) (tags : string) : result Property :=
  let tags :=
    if (1 <? GoStr.len tags)%nat
       && bool_decide (GoStr.at_ tags 0 = GoStr.at_ tags (GoStr.len tags - 1))
       && (bool_decide (GoStr.at_ tags 0 = Some "`"%char)
           || bool_decide (GoStr.at_ tags 0 = Some GoStr.dquote))
    then GoStr.slice tags 1 (GoStr.len tags - 1)
    else tags in
  if bool_decide (tags = "") then Ok property
  else
    m ← annotationLoop ∅ (GoStr.Split tags " ");
    Ok (withAnnotations property m).

(** ** Type resolver *)

(** The [if]/[else if] chain of [setType]: the pair ([ObType], [FbType]) of a
    rendered type expression, [None] for the final [else]. *)
Definition baseType (ts : string) : option (string * string) :=
  if bool_decide (ts = "string") then Some ("String", "UOffsetT")
  else if bool_decide (ts = "int") || bool_decide (ts = "int64") then Some ("Long", "Int64")
  else if bool_decide (ts = "uint") || bool_decide (ts = "uint64") then Some ("Long", "Uint64")
  else if bool_decide (ts = "int32") || bool_decide (ts = "rune") then Some ("Int", "Int32")
  else if bool_decide (ts = "uint32") then Some ("Int", "Uint32")
  else if bool_decide (ts = "int16") then Some ("Short", "Int16")
  else if bool_decide (ts = "uint16") then Some ("Short", "Uint16")
  else if bool_decide (ts = "int8") then Some ("Byte", "Int8")
  else if bool_decide (ts = "uint8") then Some ("Byte", "Uint8")
  else if bool_decide (ts = "byte") then Some ("Byte", "Byte")
  else if bool_decide (ts = "[]byte") then Some ("ByteVector", "UOffsetT")
  else if bool_decide (ts = "float64") then Some ("Double", "Float64")
  else if bool_decide (ts = "float32") then Some ("Float", "Float32")
  else if bool_decide (ts = "bool") then Some ("Bool", "Bool")
  else None.

(** [t] is [types.ExprString] of the field's type expression. *)
Definition setType (property : Property) (t : string) : result Property :=
  let property := withGoType property t in
  let ts := GoType property in
  property ← match baseType ts with
             | Some (ob, fb) => Ok (withFbType (withObType property ob) fb)
             | None => Err (ErrUnknownType ts)
             end;
  property ← (if hasAnnotation property "date" then
                if negb (bool_decide (ObType property = "Long"))
                then Err (ErrInvalidDateType (ObType property))
                else Ok (withObType property "Date")
              else Ok property);
  property ← (match Annotations property !! "link" with
              | Some link =>
                  property ← (if negb (bool_decide (ObType property = "Long"))
                              then Err (ErrInvalidRelationType (ObType property))
                              else Ok (withObType property "Relation"));
                  Ok (withRelation property (Some {| Target := Value link |}))
              | None => Ok property
              end);
  Ok property.

(** ** Flag deriver *)

Definition addObFlag (property : Property) (flag : string) : Property :=
  withObFlags property (ObFlags property ++ [flag]).

Definition setIndex (property : Property) : result Property :=
  match PIndex property with
  | Some _ => Err ErrIndexAlreadyDefined
  | None => Ok (withIndex property (Some {| IndexId := 0; IndexUid := 0 |}))
  end.

Definition setObFlags (property : Property) : result Property :=
  let property :=
    if hasAnnotation property "id" then addObFlag property "ID" else property in
  property ← (match Annotations property !! "index" with
              | Some index =>
                  let property := addObFlag property "INDEXED" in
                  let v := ToLower (Value index) in
                  property ← (if bool_decide (v = "") then Ok property
                              else if bool_decide (v = "value")
                                   then Ok (addObFlag property "INDEX_VALUE")
                              else if bool_decide (v = "hash")
                                   then Ok (addObFlag property "INDEX_HASH")
                              else if bool_decide (v = "hash64")
                                   then Ok (addObFlag property "INDEX_HASH64")
                              else Err (ErrUnknownIndexType (Value index)));
                  setIndex property
              | None => Ok property
              end);
  property ← (if hasAnnotation property "unique"
              then setIndex (addObFlag property "UNIQUE")
              else Ok property);
  property ← (match PRelation property with
              | Some _ => setIndex property
              | None => Ok property
              end);
  Ok property.

End Generator.

(** ** Syntax tree *)

(** [ast.Field]: the declared names, the rendered type expression
    ([types.ExprString f.Type]) and the raw tag literal ([f.Tag.Value], [None]
    when [f.Tag] is nil). *)
Record Field := {
  Names : list string;
  FType : string;
  Tag : option string
}.

(** The [ast.Node] shapes [entityLoader] tells apart, each with the nodes
    below it.  [Nil] is the nil node. *)
#[warnings="-register-all"]
Inductive Node :=
  | Nil
  | File (children : list Node)
  | GenDecl (children : list Node)
  | TypeSpec (name : string) (children : list Node)
  | StructType (fields : list Field) (children : list Node)
  | OtherNode (children : list Node).

(** Modelled from the spec: the [file] type ([f.f.Name.Name] and the tree
    under [f.f]) is declared outside binding.go. *)
Record file := {
  fileName : string;
  fileRoot : Node
}.

(** Modelled from the spec: [file.walk] is defined outside binding.go.  It
    visits the syntax tree depth-first; a callback that returns [false] halts
    the descent into that subtree.  As go/ast's traversals do, the callback is
    invoked with the nil node once the children of a node have been visited.
    [S] is the state captured by the callback's closure. *)
Fixpoint walk {S : Type} (fn : S → Node → S * bool) (s : S) (node : Node) : S :=
  let r := fn s node in
  if r.2 then
    let s' := match node with
              | Nil => r.1
              | File children | GenDecl children | TypeSpec _ children
              | StructType _ children | OtherNode children =>
                  foldl (walk fn) r.1 children
              end in
    (fn s' Nil).1
  else r.1.

(** ** Entities and the binding *)

(** [IdProperty] points to one of the entity's own properties: it is the
    position of that property in [Properties].  [LastPropertyId], of a type of
    the [modelinfo] package, is never touched by binding.go and left out. *)
Record Entity := {
  EName : string;
  EId : Z;
  EUid : Z;
  Properties : list Property;
  IdProperty : option nat
}.

Definition newEntity (name : string) : Entity :=
  {| EName := name; EId := 0; EUid := 0; Properties := []; IdProperty := None |}.

Definition withProperties (e : Entity) (v : list Property) : Entity :=
  {| EName := EName e; EId := EId e; EUid := EUid e; Properties := v;
     IdProperty := IdProperty e |}.

Definition withIdProperty (e : Entity) (v : option nat) : Entity :=
  {| EName := EName e; EId := EId e; EUid := EUid e; Properties := Properties e;
     IdProperty := v |}.

(** [entity.IdProperty.Name] *)
Definition idPropertyName (e : Entity) : string :=
  default "" (i ← IdProperty e; Name <$> Properties e !! i).

Record Binding := {
  Package : string;
  Entities : list Entity;
  currentEntityName : string;
  err : option Error
}.

Definition newBinding : Binding :=
  {| Package := ""; Entities := []; currentEntityName := ""; err := None |}.

Definition withPackage (b : Binding) (v : string) : Binding :=
  {| Package := v; Entities := Entities b;
     currentEntityName := currentEntityName b; err := err b |}.

Definition withEntities (b : Binding) (v : list Entity) : Binding :=
  {| Package := Package b; Entities := v;
     currentEntityName := currentEntityName b; err := err b |}.

Definition withCurrentEntityName (b : Binding) (v : string) : Binding :=
  {| Package := Package b; Entities := Entities b;
     currentEntityName := v; err := err b |}.

Definition withErr (b : Binding) (v : option Error) : Binding :=
  {| Package := Package b; Entities := Entities b;
     currentEntityName := currentEntityName b; err := v |}.

(** ** Entity builder *)

Section Builder.
Context {GS : GoStrings}.

Definition propertyError (e : Error) (property : Property) : Error :=
  ErrOnProperty e (Name property) (entityName property).

(** [if err = call; err != nil { return propertyError(err, property) }] *)
Definition orPropertyError {A} (r : result A) (property : Property) : result A :=
  match r with
  | Ok a => Ok a
  | Err e => Err (propertyError e property)
  end.

(** One iteration of [for _, f := range t.Fields.List] on the entity under
    construction and [propertiesByName]; [continue] returns the state as it
    is.  When the field is the identity, [entity.IdProperty] is the position
    at which the property is appended at the end of the iteration (every exit
    in between discards the entity). *)
Definition fieldStep (st : Entity * gset string) (f : Field)
  : result (Entity * gset string) :=
  let '(entity, propertiesByName) := st in
  if negb (length (Names f) =? 1)%nat
  then Err (ErrInvalidNames (EName entity) (length (Names f)))
  else
    let property := newProperty (EName entity) (default "" (head (Names f))) in
    property ← match Tag f with
               | Some tag => orPropertyError (setAnnotations property tag) property
               | None => Ok property
               end;
    if hasAnnotation property "transient" then Ok (entity, propertiesByName)
    else
      property ← orPropertyError (setType property (FType f)) property;
      property ← orPropertyError (setObFlags property) property;
      entity ← (if hasAnnotation property "id" then
                  match IdProperty entity with
                  | Some _ => Err (ErrMultipleId (EName entity) (idPropertyName entity)
                                                 (Name property))
                  | None => Ok (withIdProperty entity (Some (length (Properties entity))))
                  end
                else Ok entity);
      property ← match Annotations property !! "nameindb" with
                 | Some nameindb =>
                     if (GoStr.len (Value nameindb) =? 0)%nat
                     then Err (propertyError ErrNameInDbEmpty property)
                     else Ok (withObName property (Value nameindb))
                 | None => Ok (withObName property (Name property))
                 end;
      let realObName := ToLower (ObName property) in
      if bool_decide (realObName ∈ propertiesByName)
      then Err (propertyError ErrDuplicateName property)
      else Ok (withProperties entity (Properties entity ++ [property]),
               {[realObName]} ∪ propertiesByName).

Fixpoint fieldLoop (st : Entity * gset string) (fields : list Field)
  : result (Entity * gset string) :=
  match fields with
  | [] => Ok st
  | f :: rest => st ← fieldStep st f; fieldLoop st rest
  end.

(** The condition of the lookup of an identity property by name. *)
Definition isIdByName (property : Property) : bool :=
  bool_decide (ToLower (Name property) = "id")
  && bool_decide (ToLower (GoType property) = "uint64").

(** [for _, property := range entity.Properties] of the lookup by name;
    [i] is the position of the head of [properties] in [entity.Properties]. *)
Fixpoint idByNameLoop (entity : Entity) (i : nat) (properties : list Property)
  : result Entity :=
  match properties with
  | [] => Ok entity
  | property :: rest =>
      if isIdByName property then
        match IdProperty entity with
        | None =>
            idByNameLoop
              (withProperties (withIdProperty entity (Some i))
                 (alter (λ p, addObFlag p "ID") i (Properties entity)))
              (S i) rest
        | Some _ => Err (ErrIdAmbiguous (EName entity))
        end
      else idByNameLoop entity (S i) rest
  end.

(** [createEntityFromAst] up to the final append: the entity it builds for
    the struct named [name], or the error it returns. *)
Definition entityFromAst (name : string) (node : Node) : result Entity :=
  let entity := newEntity name in
  st ← match node with
       | StructType fields _ => fieldLoop (entity, ∅) fields
       | _ => Ok (entity, ∅)
       end;
  let entity := st.1 in
  if (length (Properties entity) =? 0)%nat
  then Err (ErrNoProperties (EName entity))
  else
    match IdProperty entity with
    | None =>
        entity ← idByNameLoop entity 0 (Properties entity);
        match IdProperty entity with
        | None => Err (ErrIdMissing (EName entity))
        | Some _ => Ok entity
        end
    | Some _ => Ok entity
    end.

Definition createEntityFromAst (binding : Binding) (node : Node)
  : Binding * option Error :=
  match entityFromAst (currentEntityName binding) node with
  | Err e => (binding, Some e)
  | Ok entity => (withEntities binding (Entities binding ++ [entity]), None)
  end.

(** ** Tree walker *)

Definition entityLoader (binding : Binding) (node : Node) : Binding * bool :=
  if bool_decide (err binding ≠ None) then (binding, false)
  else
    match node with
    | TypeSpec name _ => (withCurrentEntityName binding name, true)
    | StructType _ _ =>
        if bool_decide (currentEntityName binding = "")
        then (withErr binding (Some ErrUnnamedStruct), false)
        else
          let r := createEntityFromAst binding node in
          (withCurrentEntityName (withErr r.1 r.2) "", true)
    | GenDecl _ => (binding, true)
    | File _ => (binding, true)
    | _ => (binding, false)
    end.

Definition createFromAst (binding : Binding) (f : file) : Binding * option Error :=
  let binding := withPackage binding (fileName f) in
  let binding := walk entityLoader binding (fileRoot f) in
  (binding, err binding).

End Builder.

(** ** Queries of the template *)

Section Queries.
Context {GS : GoStrings}.

(** The test of the inner loop of [UsesFbUtils]. *)
Definition usesOffset (property : Property) : bool :=
  bool_decide (ToLower (ObType property) = "string")
  || bool_decide (ToLower (ObType property) = "bytevector").

(** The two nested [range] loops with their early [return true]. *)
Definition UsesFbUtils (binding : Binding) : bool :=
  existsb (λ entity, existsb usesOffset (Properties entity)) (Entities binding).

End Queries.

(** [prop != entity.IdProperty] compares pointers.  The properties of an
    entity are separate allocations, one per field, so the property at
    position [j] is the one [IdProperty] points to exactly when [IdProperty]
    is that position; a nil [IdProperty] differs from every property. *)
Definition HasNonIdProperty (entity : Entity) : bool :=
  existsb (λ j, negb (bool_decide (IdProperty entity = Some j)))
          (seq 0 (length (Properties entity))).

(** * Specification vocabulary *)

(** [property.Id] is assigned by the model registry after the discovery
    pass. *)
Definition withId (p : Property) (v : Z) : Property :=
  {| Name := Name p; ObName := ObName p; Id := v; Uid := Uid p;
     Annotations := Annotations p; ObType := ObType p; ObFlags := ObFlags p;
     GoType := GoType p; FbType := FbType p; PRelation := PRelation p;
     PIndex := PIndex p; entityName := entityName p |}.

(** The property [setType] leaves behind on success. *)
Definition resolved (p : Property) (t ob fb : string) (rel : option Relation)
  : Property :=
  {| Name := Name p; ObName := ObName p; Id := Id p; Uid := Uid p;
     Annotations := Annotations p; ObType := ob; ObFlags := ObFlags p;
     GoType := t; FbType := fb; PRelation := rel;
     PIndex := PIndex p; entityName := entityName p |}.

(** A property as the annotation parser leaves it, for running the model. *)
Definition annotated (name : string) (m : gmap string Annotation) : Property :=
  withAnnotations (newProperty "Entity" name) m.

(** How many of the three rules of [setObFlags] that allocate an Index apply
    to a property: an [index] annotation, a [unique] annotation, a non-nil
    Relation. *)
Definition indexConditions (p : Property) : nat :=
  (Nat.b2n (hasAnnotation p "index") + Nat.b2n (hasAnnotation p "unique")
   + Nat.b2n (bool_decide (is_Some (PRelation p))))%nat.

(** The [case] labels of the switch on the lower-cased [index] value. *)
Definition indexTypes : list string := [""; "value"; "hash"; "hash64"].

(** The flags [setObFlags] has appended when it reaches the switch on the
    [index] value. *)
Definition flagsUpToIndexed (p : Property) : list string :=
  ObFlags p ++ (if hasAnnotation p "id" then ["ID"] else []) ++ ["INDEXED"].

(** ** Tag strings *)

(** Whether byte [c] occurs in [s]. *)
Fixpoint hasByte (c : ascii) (s : string) : bool :=
  match s with
  | EmptyString => false
  | String c' s' => bool_decide (c' = c) || hasByte c s'
  end.

(** [`"` ++ v ++ `"`] *)
Definition quoted (v : string) : string :=
  String GoStr.dquote (v +:+ String GoStr.dquote EmptyString).

(** A tag literal as it stands in the source, between backquotes. *)
Definition rawTag (content : string) : string :=
  String "`" (content +:+ "`").

(** The two token shapes of a tag: [name] and [name:"value"]. *)
Inductive Token :=
  | Bare (name : string)
  | Valued (name value : string).

Definition tokenName (t : Token) : string :=
  match t with Bare n | Valued n _ => n end.

Definition renderToken (t : Token) : string :=
  match t with
  | Bare n => n
  | Valued n v => n +:+ String ":" (quoted v)
  end.

(** A name is free of the bytes that delimit tokens, names and values (space,
    colon, double quote, backquote) and a bare name is not empty; a value is
    free of the token separator. *)
Definition nameOk (n : string) : bool :=
  negb (hasByte " " n) && negb (hasByte ":" n)
  && negb (hasByte GoStr.dquote n) && negb (hasByte "`" n).

Definition tokenOk (t : Token) : bool :=
  match t with
  | Bare n => nameOk n && negb (bool_decide (n = ""))
  | Valued n v => nameOk n && negb (hasByte " " v)
  end.

(** Tokens separated by single spaces. *)
Fixpoint joinSpace (l : list string) : string :=
  match l with
  | [] => ""
  | [x] => x
  | x :: rest => x +:+ String " " (joinSpace rest)
  end.

Definition tagOf (tokens : list Token) : string :=
  joinSpace (renderToken <$> tokens).

(** The entry a token stands for: its lower-cased name and its value, trimmed
    when it is a quoted one, empty for a bare name. *)
Definition tokenEntry `{GoStrings} (t : Token) : string * Annotation :=
  match t with
  | Bare n => (ToLower n, {| Value := "" |})
  | Valued n v => (ToLower n, {| Value := TrimSpace v |})
  end.

(** What [setAnnotations] does once the delimiters are off. *)
Definition parseContent `{GoStrings} (p : Property) (tags : string)
  : result Property :=
  if bool_decide (tags = "") then Ok p
  else m ← annotationLoop ∅ (GoStr.Split tags " "); Ok (withAnnotations p m).

(** ** Fields and entities *)

(** The annotations of a field: what [setAnnotations] leaves in the fresh
    property of the field, the empty mapping when the field has no tag. *)
Definition fieldAnnotations `{GoStrings} (f : Field)
  : result (gmap string Annotation) :=
  match Tag f with
  | Some tag => p ← setAnnotations (newProperty "" "") tag; Ok (Annotations p)
  | None => Ok ∅
  end.

(** The first half of an iteration of the field loop, which only concerns
    the property: the check of the names, [setAnnotations], the [transient]
    exit ([None]), [setType] and [setObFlags]. *)
Definition resolveField `{GoStrings} (entity : string) (f : Field)
  : result (option Property) :=
  if negb (length (Names f) =? 1)%nat
  then Err (ErrInvalidNames entity (length (Names f)))
  else
    let property := newProperty entity (default "" (head (Names f))) in
    property ← match Tag f with
               | Some tag => orPropertyError (setAnnotations property tag) property
               | None => Ok property
               end;
    if hasAnnotation property "transient" then Ok None
    else
      property ← orPropertyError (setType property (FType f)) property;
      property ← orPropertyError (setObFlags property) property;
      Ok (Some property).

(** The second half, which concerns the entity: the identity check, the
    storage name, the check of duplicates and the append. *)
Definition acceptProperty `{GoStrings} (st : Entity * gset string)
  (property : Property) : result (Entity * gset string) :=
  let '(entity, propertiesByName) := st in
  entity ← (if hasAnnotation property "id" then
              match IdProperty entity with
              | Some _ => Err (ErrMultipleId (EName entity) (idPropertyName entity)
                                             (Name property))
              | None => Ok (withIdProperty entity (Some (length (Properties entity))))
              end
            else Ok entity);
  property ← match Annotations property !! "nameindb" with
             | Some nameindb =>
                 if (GoStr.len (Value nameindb) =? 0)%nat
                 then Err (propertyError ErrNameInDbEmpty property)
                 else Ok (withObName property (Value nameindb))
             | None => Ok (withObName property (Name property))
             end;
  let realObName := ToLower (ObName property) in
  if bool_decide (realObName ∈ propertiesByName)
  then Err (propertyError ErrDuplicateName property)
  else Ok (withProperties entity (Properties entity ++ [property]),
           {[realObName]} ∪ propertiesByName).

(** The storage name of a field that is kept: the non-empty value of its
    [nameindb] annotation, or else its declared name.  [None] for a field
    that is dropped ([transient]) or has no storage name (several names, a
    tag that does not parse, an empty [nameindb] value). *)
Definition storageName `{GoStrings} (f : Field) : option string :=
  match Names f, fieldAnnotations f with
  | [name], Ok m =>
      if bool_decide (is_Some (m !! "transient")) then None
      else match m !! "nameindb" with
           | Some nameindb =>
               if bool_decide (Value nameindb = "") then None
               else Some (Value nameindb)
           | None => Some name
           end
  | _, _ => None
  end.

(** The field with another declared type. *)
Definition withFType (f : Field) (t : string) : Field :=
  {| Names := Names f; FType := t; Tag := Tag f |}.

(** The state in which [createEntityFromAst] enters the field loop. *)
Definition initialState (name : string) : Entity * gset string :=
  (newEntity name, ∅).

Definition isErr {A} (r : result A) : Prop :=
  match r with Err _ => True | Ok _ => False end.

(** The storage name [acceptProperty] gives a resolved property. *)
Definition propertyStorageName (p : Property) : option string :=
  match Annotations p !! "nameindb" with
  | Some nameindb =>
      if bool_decide (Value nameindb = "") then None else Some (Value nameindb)
  | None => Some (Name p)
  end.

(** What holds of the state of the field loop of entity [name] once the
    fields [fs] have been processed:
    - the entity keeps its name;
    - the lower-cased storage name of every kept field is recorded;
    - [IdProperty] is the position of the property with an [id] annotation,
      when there is one, and nil otherwise;
    - the properties are those of the kept fields, each with its storage
      name set;
    - the first half of the iteration succeeded on every field. *)
Record loopInv `{GoStrings} (name : string) (fs : list Field)
    (st : Entity * gset string) : Prop := {
  inv_name : EName st.1 = name;
  inv_names : ∀ f n, f ∈ fs → storageName f = Some n → ToLower n ∈ st.2;
  inv_id_at : ∀ j p, Properties st.1 !! j = Some p →
              hasAnnotation p "id" = true → IdProperty st.1 = Some j;
  inv_id_is : ∀ i, IdProperty st.1 = Some i →
              ∃ p, Properties st.1 !! i = Some p ∧ hasAnnotation p "id" = true;
  inv_from : ∀ p, p ∈ Properties st.1 →
             ∃ f q, f ∈ fs ∧ resolveField name f = Ok (Some q) ∧
                    p = withObName q (ObName p);
  inv_kept : ∀ f q, f ∈ fs → resolveField name f = Ok (Some q) →
             ∃ j n, Properties st.1 !! j = Some (withObName q n);
  inv_resolved : ∀ f, f ∈ fs → ∃ r, resolveField name f = Ok r
}.

(** The entity once the property at position [i] has been adopted as the
    identity by the lookup by name: [IdProperty] points to it and it carries
    one more flag, [ID]. *)
Definition adoptId (e : Entity) (i : nat) : Entity :=
  withProperties (withIdProperty e (Some i))
    (alter (λ p, addObFlag p "ID") i (Properties e)).

(** A field of name [n] that is kept and carries the [id] annotation. *)
Definition keptWithId `{GoStrings} (f : Field) (n : string) : Prop :=
  Names f = [n] ∧
  ∃ m, fieldAnnotations f = Ok m ∧ is_Some (m !! "id") ∧ m !! "transient" = None.

(** A candidate of the lookup of the identity by name: a property whose
    declared name lower-cases to [id] and whose declared type is [uint64]. *)
Definition idCandidate `{GoStrings} (p : Property) : bool :=
  bool_decide (ToLower (Name p) = "id") && bool_decide (GoType p = "uint64").



(** ** The discovery pass *)

(** The nodes below a node. *)
Definition children (node : Node) : list Node :=
  match node with
  | Nil => []
  | File c | GenDecl c | TypeSpec _ c | StructType _ c | OtherNode c => c
  end.

(** A callback that also appends the state it leaves to a log: the log of a
    walk is the sequence of the states after each invocation of the
    callback. *)
Definition logged {S : Type} (fn : S → Node → S * bool)
  : S * list S → Node → (S * list S) * bool :=
  λ sl node, let r := fn sl.1 node in ((r.1, sl.2 ++ [r.1]), r.2).

(** The bindings after each invocation of [entityLoader] by [createFromAst]. *)
Definition discoveryTrace `{GoStrings} (binding : Binding) (f : file)
  : list Binding :=
  (walk (logged entityLoader) (withPackage binding (fileName f), [])
        (fileRoot f)).2.

(** ** Vocabulary of the further properties *)

(** [n] spaces. *)
Fixpoint spaces (n : nat) : string :=
  match n with
  | O => EmptyString
  | S n' => String " " (spaces n')
  end.

(** The lower-cased names of a list of tokens. *)
Definition tokenKeys `{GoStrings} (tokens : list Token) : list string :=
  (λ t, ToLower (tokenName t)) <$> tokens.

(** The type texts of the table of [setType]. *)
Definition supportedTypes : list string :=
  ["string"; "int"; "int64"; "uint"; "uint64"; "int32"; "rune"; "uint32";
   "int16"; "uint16"; "int8"; "uint8"; "byte"; "[]byte"; "float64"; "float32";
   "bool"].

(** The flags of the switch on the lower-cased [index] value. *)
Definition indexSubFlags (v : string) : list string :=
  if bool_decide (v = "value") then ["INDEX_VALUE"]
  else if bool_decide (v = "hash") then ["INDEX_HASH"]
  else if bool_decide (v = "hash64") then ["INDEX_HASH64"]
  else [].

(** The flags [setObFlags] appends to a property, by its annotations. *)
Definition derivedFlags `{GoStrings} (p : Property) : list string :=
  (if hasAnnotation p "id" then ["ID"] else [])
  ++ match Annotations p !! "index" with
     | Some index => "INDEXED" :: indexSubFlags (ToLower (Value index))
     | None => []
     end
  ++ (if hasAnnotation p "unique" then ["UNIQUE"] else []).

(** The declared name and type of a field that is kept, [None] for a field
    that is dropped. *)
Definition keptField `{GoStrings} (f : Field) : option (string * string) :=
  match Names f, fieldAnnotations f with
  | [name], Ok m =>
      if bool_decide (is_Some (m !! "transient")) then None
      else Some (name, FType f)
  | _, _ => None
  end.

(** A field that binds one name and whose tag says [transient]. *)
Definition transientField `{GoStrings} (f : Field) : Prop :=
  ∃ name m, Names f = [name] ∧ fieldAnnotations f = Ok m ∧
            is_Some (m !! "transient").

(** ** Vocabulary of the discovery pass *)

(** The declaration [type name struct { fields }] as the tree walker meets
    it: a GenDecl with one TypeSpec, whose children are the identifier and
    the StructType, whose child is the field list. *)
Definition structDecl (d : string * list Field) : Node :=
  GenDecl [TypeSpec d.1 [OtherNode []; StructType d.2 [OtherNode []]]].

(** The entity of a declaration, or the error of building it. *)
Definition declared `{GoStrings} (d : string * list Field) : result Entity :=
  entityFromAst d.1 (StructType d.2 [OtherNode []]).

(** A source file of package [pkg]: the package identifier, then the struct
    declarations [ds]. *)
Definition sourceFile (pkg : string) (ds : list (string * list Field)) : file :=
  {| fileName := pkg; fileRoot := File (OtherNode [] :: (structDecl <$> ds)) |}.

(** The nodes [entityLoader] neither inspects nor descends into: the nil node
    and the nodes of the types its switch does not list. *)
Definition cutOff (node : Node) : bool :=
  match node with
  | Nil | OtherNode _ => true
  | _ => false
  end.

(** A property as [setType] leaves the three type fields: the physical type
    is the one the table gives the declared type, and the logical type is the
    one of the table, or [Date] or [Relation] over the logical type [Long]. *)
Definition typed (p : Property) : Prop :=
  ∃ ob fb, baseType (GoType p) = Some (ob, fb) ∧ FbType p = fb ∧
           (ObType p = ob ∨ ob = "Long" ∧ (ObType p = "Date" ∨ ObType p = "Relation")).

(** What the generator guarantees of an entity it has built. *)
Definition wellFormed `{GoStrings} (e : Entity) : Prop :=
  EName e ≠ "" ∧ Properties e ≠ [] ∧
  (∃ i idp, IdProperty e = Some i ∧ Properties e !! i = Some idp ∧
            ∀ j p, Properties e !! j = Some p → "ID" ∈ ObFlags p ↔ j = i) ∧
  NoDup ((λ p, ToLower (ObName p)) <$> Properties e) ∧
  ∀ p, p ∈ Properties e → typed p ∧ propertyStorageName p = Some (ObName p).

(** The table of [setType]: declared type, logical type, physical type. *)
Definition typeTable : list (string * string * string) :=
  [ ("string", "String", "UOffsetT");
    ("int", "Long", "Int64"); ("int64", "Long", "Int64");
    ("uint", "Long", "Uint64"); ("uint64", "Long", "Uint64");
    ("int32", "Int", "Int32"); ("rune", "Int", "Int32");
    ("uint32", "Int", "Uint32");
    ("int16", "Short", "Int16"); ("uint16", "Short", "Uint16");
    ("int8", "Byte", "Int8"); ("uint8", "Byte", "Uint8"); ("byte", "Byte", "Byte");
    ("[]byte", "ByteVector", "UOffsetT");
    ("float64", "Double", "Float64"); ("float32", "Float", "Float32");
    ("bool", "Bool", "Bool") ].

(** Tokens separated by runs of spaces.  [spacedPieces lead ts] is what lies
    between the spaces of such a tag: [lead] empty pieces, then each token
    followed by as many empty pieces as its number says.  [joinSpace] puts one
    space between two pieces, so that the tag starts with [lead] spaces, a
    token numbered [n] is followed by [n + 1] spaces, and the last token by
    [n] spaces. *)
Fixpoint tokenPieces (ts : list (Token * nat)) : list string :=
  match ts with
  | [] => []
  | (t, n) :: rest => renderToken t :: replicate n "" ++ tokenPieces rest
  end.

Definition spacedPieces (lead : nat) (ts : list (Token * nat)) : list string :=
  replicate lead "" ++ tokenPieces ts.

Definition spacedTag (lead : nat) (ts : list (Token * nat)) : string :=
  joinSpace (spacedPieces lead ts).

(** * Properties *)

(** ** FlatBuffers slot and table offset *)

Lemma uint32_small z : 0 ≤ z < 2 ^ 32 → uint32 z = z.
Proof. intros. unfold uint32. by rewrite Z.mod_small. Qed.

Lemma int_small z : 0 ≤ z < 2 ^ 32 → int z = z.
Proof. intros. unfold int. rewrite Z.mod_small; lia. Qed.

(** For an identifier [id >= 1] the slot is [id - 1]. *)
Lemma FbSlot_pred (p : Property) :
  1 ≤ Id p < 2 ^ 32 → FbSlot p = Id p - 1.
Proof.
  intros. unfold FbSlot. rewrite uint32_small by lia. apply int_small. lia.
Qed.

(** What [FbvTableOffset] computes before its check: [4 + 2 * slot] reduced
    modulo [2^32]. *)
Lemma FbvTableOffset_unfold (p : Property) :
  1 ≤ Id p < 2 ^ 32 →
  FbvTableOffset p =
    let result := (4 + 2 * (Id p - 1)) mod 2 ^ 32 in
    if decide (result ≤ 65535) then Ok result
    else Err (ErrVTableOffset (Name p) (Id p)).
Proof.
  intros. unfold FbvTableOffset. rewrite FbSlot_pred by done.
  rewrite (uint32_small (Id p - 1)) by lia. unfold uint32, uint16. cbv zeta.
  set (r := (4 + 2 * (Id p - 1)) mod 2 ^ 32).
  assert (0 ≤ r < 2 ^ 32) by (apply Z.mod_pos_bound; lia).
  destruct (decide (r ≤ 65535)).
  - rewrite (Z.mod_small r (2 ^ 16)) by lia.
    rewrite (Z.mod_small r (2 ^ 32)) by lia.
    by rewrite Z.eqb_refl.
  - assert (r mod 2 ^ 16 < 2 ^ 16) by (apply Z.mod_pos_bound; lia).
    assert (0 ≤ r mod 2 ^ 16) by (apply Z.mod_pos_bound; lia).
    rewrite (Z.mod_small (r mod 2 ^ 16) (2 ^ 32)) by lia.
    destruct (Z.eqb_spec (r mod 2 ^ 16) r); [lia | done].
Qed.

(** When [4 + 2 * (id - 1)] fits 16 bits it is the offset returned. *)
Lemma FbvTableOffset_fits (p : Property) :
  1 ≤ Id p < 2 ^ 32 → 4 + 2 * (Id p - 1) ≤ 65535 →
  FbSlot p = Id p - 1 ∧ FbvTableOffset p = Ok (4 + 2 * (Id p - 1)).
Proof.
  intros. split; [by apply FbSlot_pred |].
  rewrite FbvTableOffset_unfold by done. cbv zeta.
  rewrite Z.mod_small by lia. by rewrite decide_True by lia.
Qed.

(** Identifiers 1, 2, 3 have slots 0, 1, 2 and offsets 4, 6, 8. *)
Lemma FbvTableOffset_first_three (p : Property) :
  (FbSlot (withId p 1), FbvTableOffset (withId p 1)) = (0, Ok 4) ∧
  (FbSlot (withId p 2), FbvTableOffset (withId p 2)) = (1, Ok 6) ∧
  (FbSlot (withId p 3), FbvTableOffset (withId p 3)) = (2, Ok 8).
Proof. done. Qed.

(** The offset check is sound below the point where the 32-bit product wraps:
    for [32767 <= id <= 2^31 - 2] the call panics. *)
Lemma FbvTableOffset_panics_below_wrap (p : Property) :
  32767 ≤ Id p ≤ 2 ^ 31 - 2 →
  FbvTableOffset p = Err (ErrVTableOffset (Name p) (Id p)).
Proof.
  intros. rewrite FbvTableOffset_unfold by lia. cbv zeta.
  rewrite Z.mod_small by lia. by rewrite decide_False by lia.
Qed.

(** C1 (defect): the sum [4 + 2 * slot] is computed in [uint32] and wraps
    before it is checked, so the identifier [2^31 - 1], for which
    [4 + 2 * (id - 1) = 2^32] exceeds 65535, does not panic: the call returns
    offset 0.  Identifiers up to [2^31 - 2] behave as specified
    ([FbvTableOffset_fits], [FbvTableOffset_panics_below_wrap]). *)
Theorem FbvTableOffset_wraps (p : Property) :
  let q := withId p 2147483647 in
  FbSlot q = 2147483646 ∧ 65535 < 4 + 2 * (Id q - 1) ∧ FbvTableOffset q = Ok 0.
Proof. done. Qed.

(** ** Proof support *)

(** Reduces binds on known results and projections of updated records,
    leaving map lookups and string operations folded. *)
Ltac rsimpl :=
  cbn [mbind result_bind negb andb orb fst snd
       Name ObName Id Uid Annotations ObType ObFlags GoType FbType PRelation
       PIndex entityName Value Target
       withObName withAnnotations withGoType withObType withFbType withObFlags
       withRelation withIndex newProperty addObFlag
       EName EId EUid Properties IdProperty newEntity withProperties
       withIdProperty
       Package Entities currentEntityName err withPackage withEntities
       withCurrentEntityName withErr orPropertyError propertyError] in *.

Lemma hasAnnotation_true p key :
  hasAnnotation p key = true ↔ is_Some (Annotations p !! key).
Proof. unfold hasAnnotation. by rewrite bool_decide_eq_true. Qed.

Lemma hasAnnotation_false p key :
  hasAnnotation p key = false ↔ Annotations p !! key = None.
Proof.
  unfold hasAnnotation. rewrite bool_decide_eq_false.
  by rewrite eq_None_not_Some.
Qed.

(** ** Type resolution with [date] and [link] *)

Section TypeResolver.
Context {GS : GoStrings}.



(** C3: with a [date] or a [link] annotation, [setType] fails whenever the
    base table does not give [Long]; on a [Long] base, [date] alone succeeds
    and overwrites the logical type with [Date], [link] alone succeeds,
    overwrites it with [Relation] and attaches a Relation whose target is the
    annotation's value; a field with both annotations fails in every case. *)
Theorem setType_date_link (p : Property) (t : string) :
  hasAnnotation p "date" = true ∨ hasAnnotation p "link" = true →
  (fst <$> baseType t ≠ Some "Long" → ∃ e, setType p t = Err e) ∧
  (∀ fb, baseType t = Some ("Long", fb) →
     (hasAnnotation p "date" = true → hasAnnotation p "link" = false →
        setType p t = Ok (resolved p t "Date" fb (PRelation p))) ∧
     (∀ link, hasAnnotation p "date" = false → Annotations p !! "link" = Some link →
        setType p t =
          Ok (resolved p t "Relation" fb (Some {| Target := Value link |})))) ∧
  (hasAnnotation p "date" = true → hasAnnotation p "link" = true →
     ∃ e, setType p t = Err e).
Proof.
  intros Hany. unfold setType. rsimpl.
  destruct (baseType t) as [[ob fb]|] eqn:Hbase; rsimpl.
  2:{ split_and!; eauto. intros ? [=]. }
  change (hasAnnotation (withFbType (withObType (withGoType p t) ob) fb) "date")
    with (hasAnnotation p "date").
  split_and!.
  - intros Hne. assert (ob ≠ "Long") as Hob by (intros ->; by apply Hne).
    destruct (hasAnnotation p "date") eqn:Hd; rsimpl.
    + rewrite bool_decide_eq_false_2 by done. rsimpl. eauto.
    + destruct Hany as [?|Hl]; [done|].
      apply hasAnnotation_true in Hl as [a Ha]. rewrite Ha. rsimpl.
      rewrite bool_decide_eq_false_2 by done. rsimpl. eauto.
  - intros fb' [= -> ->]. split.
    + intros -> Hl%hasAnnotation_false. rewrite bool_decide_eq_true_2 by done.
      rsimpl. by rewrite Hl.
    + intros link -> Hl. rsimpl. rewrite Hl. rsimpl.
      by rewrite bool_decide_eq_true_2 by done.
  - intros -> Hl. apply hasAnnotation_true in Hl as [a Ha].
    destruct (bool_decide (ob = "Long")); rsimpl; [|eauto].
    rewrite Ha. rsimpl. eauto.
Qed.

End TypeResolver.


Lemma setType_date_link_witness :
  let p := annotated "Created" {[ "date" := {| Value := "" |} ]} in
  hasAnnotation p "date" = true ∧
  setType p "int64" = Ok (resolved p "int64" "Date" "Int64" None).
Proof.
  split; [reflexivity|].
  apply (setType_date_link
           (annotated "Created" {[ "date" := {| Value := "" |} ]}) "int64");
    [left|..]; reflexivity.
Defined.

(** ** Flag derivation *)

Section FlagDeriver.
Context {GS : GoStrings}.

(** On the lower-case ASCII labels themselves, [ToLower] is the identity. *)
Lemma ToLower_indexTypes v : v ∈ indexTypes → ToLower v = v.
Proof.
  unfold indexTypes. rewrite !elem_of_cons, elem_of_nil.
  intros [->|[->|[->|[->|[]]]]]; by rewrite ToLower_ascii.
Qed.

Lemma setIndex_fresh p :
  PIndex p = None →
  setIndex p = Ok (withIndex p (Some {| IndexId := 0; IndexUid := 0 |})).
Proof. unfold setIndex. by intros ->. Qed.

Lemma setIndex_taken p :
  is_Some (PIndex p) → setIndex p = Err ErrIndexAlreadyDefined.
Proof. unfold setIndex. by intros [i ->]. Qed.

(** The switch on the [index] value, for a value whose lower-casing is one of
    the labels: the derivation goes on to [setIndex] with the flags extended
    by [sub]. *)
Lemma setObFlags_known_index p a sub :
  Annotations p !! "index" = Some a → PIndex p = None →
  (ToLower (Value a) = "" ∧ sub = []
   ∨ ToLower (Value a) = "value" ∧ sub = ["INDEX_VALUE"]
   ∨ ToLower (Value a) = "hash" ∧ sub = ["INDEX_HASH"]
   ∨ ToLower (Value a) = "hash64" ∧ sub = ["INDEX_HASH64"]) →
  setObFlags p =
    if hasAnnotation p "unique" || bool_decide (is_Some (PRelation p))
    then Err ErrIndexAlreadyDefined
    else Ok (withIndex (withObFlags p (flagsUpToIndexed p ++ sub))
               (Some {| IndexId := 0; IndexUid := 0 |})).
Proof.
  intros Ha Hfresh Hv.
  unfold setObFlags, flagsUpToIndexed, setIndex, hasAnnotation.
  destruct (bool_decide (is_Some (Annotations p !! "id")));
    rsimpl; rewrite Ha; rsimpl;
    destruct Hv as [[-> ->]|[[-> ->]|[[-> ->]|[-> ->]]]];
    repeat (first [rewrite bool_decide_eq_true_2 by done
                  | rewrite bool_decide_eq_false_2 by done]);
    rsimpl; rewrite Hfresh; rsimpl;
    (destruct (bool_decide (is_Some (Annotations p !! "unique"))); rsimpl;
     [done|]);
    (destruct (PRelation p) as [r|]; rsimpl;
     [by rewrite bool_decide_eq_true_2 by eauto|]);
    rewrite bool_decide_eq_false_2 by (by intros [? ?]);
    unfold withIndex, withObFlags; rsimpl;
    by rewrite ?app_nil_r, <- ?(assoc_L (++)).
Qed.

(** A value outside the labels is rejected before any Index is allocated. *)
Lemma setObFlags_unknown_index p a :
  Annotations p !! "index" = Some a → ToLower (Value a) ∉ indexTypes →
  setObFlags p = Err (ErrUnknownIndexType (Value a)).
Proof.
  intros Ha Hv. unfold setObFlags.
  assert (∀ (b : bool) (q : Property),
    Annotations (if b then addObFlag q "ID" else q) = Annotations q) as Hann
    by (by intros []).
  rewrite Hann, Ha. rsimpl.
  unfold indexTypes in Hv. rewrite !not_elem_of_cons in Hv.
  destruct Hv as (? & ? & ? & ? & _).
  by rewrite !bool_decide_eq_false_2 by done.
Qed.

(** Without an [index] annotation. *)
Lemma setObFlags_no_index p :
  Annotations p !! "index" = None → PIndex p = None →
  let flags := ObFlags p ++ (if hasAnnotation p "id" then ["ID"] else []) in
  let index := Some {| IndexId := 0; IndexUid := 0 |} in
  setObFlags p =
    match hasAnnotation p "unique", PRelation p with
    | true, Some _ => Err ErrIndexAlreadyDefined
    | true, None => Ok (withIndex (withObFlags p (flags ++ ["UNIQUE"])) index)
    | false, Some _ => Ok (withIndex (withObFlags p flags) index)
    | false, None => Ok (withObFlags p flags)
    end.
Proof.
  intros Ha Hfresh. cbv zeta.
  unfold setObFlags, setIndex, hasAnnotation.
  destruct (bool_decide (is_Some (Annotations p !! "id")));
    rsimpl; rewrite Ha; rsimpl;
    (destruct (bool_decide (is_Some (Annotations p !! "unique"))); rsimpl;
     rewrite ?Hfresh; rsimpl);
    (destruct (PRelation p) as [r|]; rsimpl; rewrite ?Hfresh; rsimpl);
    unfold withIndex, withObFlags; rsimpl;
    rewrite ?app_nil_r; try done; by destruct p.
Qed.

(** C4 (as amended): on a property without an Index, whose [index]
    annotation, if any, has a value that lower-cases to one of the labels,
    flag derivation succeeds and allocates an Index when exactly one of the
    three conditions holds, and fails with "index is already defined" when
    two or more hold. *)
Theorem setObFlags_index_conditions (p : Property) :
  PIndex p = None →
  (∀ a, Annotations p !! "index" = Some a → ToLower (Value a) ∈ indexTypes) →
  (indexConditions p = 1%nat →
     ∃ q, setObFlags p = Ok q ∧ is_Some (PIndex q)) ∧
  ((2 ≤ indexConditions p)%nat → setObFlags p = Err ErrIndexAlreadyDefined).
Proof.
  intros Hfresh Hknown. unfold indexConditions.
  destruct (Annotations p !! "index") as [a|] eqn:Ha.
  - assert (hasAnnotation p "index" = true) as ->
      by (apply hasAnnotation_true; eauto).
    specialize (Hknown a eq_refl). unfold indexTypes in Hknown.
    rewrite !elem_of_cons, elem_of_nil in Hknown.
    assert (∃ sub, setObFlags p =
      if hasAnnotation p "unique" || bool_decide (is_Some (PRelation p))
      then Err ErrIndexAlreadyDefined
      else Ok (withIndex (withObFlags p (flagsUpToIndexed p ++ sub))
                 (Some {| IndexId := 0; IndexUid := 0 |}))) as [sub ->].
    { destruct Hknown as [?|[?|[?|[?|[]]]]];
        eexists; apply (setObFlags_known_index p a); eauto 10. }
    destruct (hasAnnotation p "unique"), (bool_decide (is_Some (PRelation p)));
      cbn; split; intros; try lia; try done; eauto.
  - assert (hasAnnotation p "index" = false) as ->
      by (by apply hasAnnotation_false).
    rewrite setObFlags_no_index by done. cbv zeta.
    destruct (hasAnnotation p "unique"), (PRelation p) as [r|];
      rewrite ?bool_decide_eq_true_2 by eauto;
      rewrite ?bool_decide_eq_false_2 by (by intros [? ?]);
      cbn; split; intros; try lia; try done; rsimpl; eauto.
Qed.

(** C5 (as amended): with an [index] annotation, flag derivation appends
    [INDEXED] and then switches on the lower-cased value: the empty value adds
    nothing, [value] adds [INDEX_VALUE], [hash] adds [INDEX_HASH], [hash64]
    adds [INDEX_HASH64] (whatever the case the value is written in); a value
    whose lower-casing is none of these fails with the unknown-index-type
    error.  The flags are observed on a property on which the derivation
    completes: no Index yet, no [unique] annotation, no Relation.  The four
    values themselves are their own lower-casing. *)
Theorem setObFlags_index_value (p : Property) (a : Annotation) :
  Annotations p !! "index" = Some a →
  (ToLower (Value a) ∉ indexTypes →
     setObFlags p = Err (ErrUnknownIndexType (Value a))) ∧
  (PIndex p = None → hasAnnotation p "unique" = false → PRelation p = None →
     ∀ sub,
       ToLower (Value a) = "" ∧ sub = []
       ∨ ToLower (Value a) = "value" ∧ sub = ["INDEX_VALUE"]
       ∨ ToLower (Value a) = "hash" ∧ sub = ["INDEX_HASH"]
       ∨ ToLower (Value a) = "hash64" ∧ sub = ["INDEX_HASH64"] →
       ∃ q, setObFlags p = Ok q ∧ ObFlags q = flagsUpToIndexed p ++ sub) ∧
  (∀ v, v ∈ indexTypes → ToLower v = v).
Proof.
  intros Ha. split_and!.
  - by apply setObFlags_unknown_index.
  - intros Hfresh Hu Hr sub Hv.
    rewrite (setObFlags_known_index p a sub) by done.
    rewrite Hu, Hr. rewrite bool_decide_eq_false_2 by (by intros [? ?]).
    rsimpl. eauto.
  - apply ToLower_indexTypes.
Qed.

End FlagDeriver.

Lemma setObFlags_index_conditions_witness :
  let p := annotated "Name" {[ "unique" := {| Value := "" |} ]} in
  indexConditions p = 1%nat ∧
  ∃ q, @setObFlags AsciiStrings p = Ok q ∧ is_Some (PIndex q).
Proof.
  split; [reflexivity|].
  apply (@setObFlags_index_conditions AsciiStrings
           (annotated "Name" {[ "unique" := {| Value := "" |} ]}));
    [reflexivity | intros a; vm_compute; discriminate | reflexivity].
Defined.

(** C4 (as stated) fails: a property whose only condition is an [index]
    annotation with an unknown value is rejected. *)
Lemma setObFlags_index_conditions_counterexample :
  let p := annotated "Name" {[ "index" := {| Value := "bogus" |} ]} in
  PIndex p = None ∧ indexConditions p = 1%nat ∧
  @setObFlags AsciiStrings p = Err (ErrUnknownIndexType "bogus").
Proof. split_and!; reflexivity. Qed.

Lemma setObFlags_index_value_witness :
  let p := annotated "Name" {[ "index" := {| Value := "Hash64" |} ]} in
  Annotations p !! "index" = Some {| Value := "Hash64" |} ∧
  ∃ q, @setObFlags AsciiStrings p = Ok q ∧
       ObFlags q = ["INDEXED"; "INDEX_HASH64"].
Proof.
  split; [reflexivity|].
  refine (proj1 (proj2 (@setObFlags_index_value AsciiStrings
                   (annotated "Name" {[ "index" := {| Value := "Hash64" |} ]})
                   {| Value := "Hash64" |} _)) _ _ _ ["INDEX_HASH64"] _);
    [reflexivity .. | right; right; right; split; reflexivity].
Defined.

(** C5 (as stated) fails: the value [HASH] is none of the four listed values,
    and flag derivation accepts it as [hash]. *)
Lemma setObFlags_index_value_counterexample :
  let p := annotated "Name" {[ "index" := {| Value := "HASH" |} ]} in
  ("HASH" ∉ indexTypes) ∧
  ∃ q, @setObFlags AsciiStrings p = Ok q ∧
       ObFlags q = ["INDEXED"; "INDEX_HASH"].
Proof.
  split.
  - unfold indexTypes. rewrite !not_elem_of_cons. split_and!; try done.
    apply not_elem_of_nil.
  - eexists. split; reflexivity.
Qed.

(** ** Byte strings *)

Section Strings.

#[local] Arguments String.append !_ _ / : simpl nomatch.

Lemma sapp_assoc s1 s2 s3 : (s1 +:+ s2) +:+ s3 = s1 +:+ (s2 +:+ s3).
Proof. induction s1 as [|c s1 IH]; [done|]. cbn. by rewrite IH. Qed.

Lemma len_app s1 s2 : GoStr.len (s1 +:+ s2) = (GoStr.len s1 + GoStr.len s2)%nat.
Proof. unfold GoStr.len. induction s1; cbn; congruence. Qed.

Lemma substring_prefix s1 s2 :
  String.substring 0 (String.length s1) (s1 +:+ s2) = s1.
Proof.
  induction s1 as [|c s1 IH]; cbn.
  - by destruct s2.
  - by rewrite IH.
Qed.

Lemma substring_whole s : String.substring 0 (String.length s) s = s.
Proof. induction s as [|c s IH]; cbn; [done | by rewrite IH]. Qed.

Lemma substring_drop s1 s2 n :
  String.substring (String.length s1) n (s1 +:+ s2) = String.substring 0 n s2.
Proof. induction s1 as [|c s1 IH]; cbn; [done | by rewrite IH]. Qed.

Lemma get_app_length s1 c s2 :
  String.get (String.length s1) (s1 +:+ String c s2) = Some c.
Proof. induction s1 as [|c' s1 IH]; cbn; [done | by rewrite IH]. Qed.

Lemma slice_prefix s1 s2 : GoStr.slice (s1 +:+ s2) 0 (GoStr.len s1) = s1.
Proof.
  unfold GoStr.slice, GoStr.len. rewrite Nat.sub_0_r. apply substring_prefix.
Qed.

Lemma sliceFrom_after s1 c s2 :
  GoStr.sliceFrom (s1 +:+ String c s2) (GoStr.len s1 + 1) = s2.
Proof.
  unfold GoStr.sliceFrom, GoStr.len.
  replace (String.length s1 + 1)%nat with (String.length (s1 +:+ String c ""))
    by (pose proof (len_app s1 (String c "")) as Hl; unfold GoStr.len in Hl;
        by rewrite Hl).
  replace (s1 +:+ String c s2) with ((s1 +:+ String c "") +:+ s2)
    by (by rewrite sapp_assoc).
  rewrite substring_drop.
  replace (String.length ((s1 +:+ String c "") +:+ s2)
           - String.length (s1 +:+ String c ""))%nat with (String.length s2).
  - apply substring_whole.
  - pose proof (len_app (s1 +:+ String c "") s2) as Hl. unfold GoStr.len in Hl.
    rewrite Hl. lia.
Qed.

(** A string between two bytes [c] passes the delimiter check of
    [setAnnotations] and yields its content back. *)
Lemma wrapped_first c v : GoStr.at_ (String c (v +:+ String c "")) 0 = Some c.
Proof. done. Qed.

Lemma wrapped_last c v :
  GoStr.at_ (String c (v +:+ String c ""))
            (GoStr.len (String c (v +:+ String c "")) - 1) = Some c.
Proof.
  unfold GoStr.at_, GoStr.len. cbn. rewrite Nat.sub_0_r.
  pose proof (len_app v (String c "")) as Hl. unfold GoStr.len in Hl.
  rewrite Hl. cbn. replace (String.length v + 1)%nat with (S (String.length v)) by lia.
  cbn. destruct (String.length v) eqn:Hn.
  - destruct v; [done | discriminate].
  - rewrite <- Hn. apply get_app_length.
Qed.

Lemma wrapped_inner c v :
  GoStr.slice (String c (v +:+ String c "")) 1
              (GoStr.len (String c (v +:+ String c "")) - 1) = v.
Proof.
  unfold GoStr.slice, GoStr.len. cbn. rewrite Nat.sub_0_r.
  pose proof (len_app v (String c "")) as Hl. unfold GoStr.len in Hl.
  rewrite Hl. cbn. replace (String.length v + 1 - 1)%nat with (String.length v) by lia.
  apply substring_prefix.
Qed.

Lemma wrapped_len c v :
  (1 <? GoStr.len (String c (v +:+ String c "")))%nat = true.
Proof.
  apply Nat.ltb_lt. unfold GoStr.len. cbn.
  pose proof (len_app v (String c "")) as Hl. unfold GoStr.len in Hl.
  rewrite Hl. cbn. lia.
Qed.

(** [IndexRune] finds the first occurrence. *)
Lemma IndexRune_absent c s : hasByte c s = false → GoStr.IndexRune s c = None.
Proof.
  induction s as [|c' s IH]; cbn; [done|].
  intros [Hc Hs]%orb_false_iff. apply bool_decide_eq_false in Hc.
  rewrite decide_False by done. by rewrite IH.
Qed.

Lemma IndexRune_first c s1 s2 :
  hasByte c s1 = false →
  GoStr.IndexRune (s1 +:+ String c s2) c = Some (GoStr.len s1).
Proof.
  induction s1 as [|c' s1 IH]; cbn.
  - intros _. by rewrite decide_True.
  - intros [Hc Hs]%orb_false_iff. apply bool_decide_eq_false in Hc.
    rewrite decide_False by done. by rewrite IH.
Qed.

(** [Split] on a string with no separator, and across a separator. *)
Lemma Split_no_sep c s : hasByte c s = false → GoStr.Split s c = [s].
Proof.
  induction s as [|c' s IH]; cbn; [done|].
  intros [Hc Hs]%orb_false_iff. apply bool_decide_eq_false in Hc.
  rewrite decide_False by done. by rewrite IH.
Qed.

Lemma Split_app_sep c s1 s2 :
  hasByte c s1 = false →
  GoStr.Split (s1 +:+ String c s2) c = s1 :: GoStr.Split s2 c.
Proof.
  induction s1 as [|c' s1 IH]; cbn.
  - intros _. by rewrite decide_True.
  - intros [Hc Hs]%orb_false_iff. apply bool_decide_eq_false in Hc.
    rewrite decide_False by done. by rewrite IH.
Qed.

Lemma Split_joinSpace (l : list string) :
  l ≠ [] → Forall (λ s, hasByte " " s = false) l →
  GoStr.Split (joinSpace l) " " = l.
Proof.
  intros Hne Hall. induction Hall as [|x l Hx Hl IH]; [done|].
  destruct l as [|y l]; cbn.
  - by apply Split_no_sep.
  - rewrite Split_app_sep by done. f_equal. by apply IH.
Qed.

Lemma hasByte_app c s1 s2 : hasByte c (s1 +:+ s2) = hasByte c s1 || hasByte c s2.
Proof. induction s1 as [|c' s1 IH]; cbn; [done|]. by rewrite IH, orb_assoc. Qed.

End Strings.

(** ** Annotation parsing *)

Section Parser.
Context {GS : GoStrings}.

#[local] Arguments String.append !_ _ / : simpl nomatch.

Lemma nameOk_spec n :
  nameOk n = true →
  hasByte " " n = false ∧ hasByte ":" n = false ∧
  hasByte GoStr.dquote n = false ∧ hasByte "`" n = false.
Proof.
  unfold nameOk. rewrite !andb_true_iff, !negb_true_iff. tauto.
Qed.

(** One iteration of the token loop on a well-formed token. *)
Lemma annotationLoop_token m t rest :
  tokenOk t = true →
  annotationLoop m (renderToken t :: rest) =
    match m !! (tokenEntry t).1 with
    | Some _ => Err (ErrDuplicateAnnotation (tokenEntry t).1)
    | None => annotationLoop (<[(tokenEntry t).1 := (tokenEntry t).2]> m) rest
    end.
Proof.
  destruct t as [n|n v]; cbn [tokenOk renderToken tokenEntry fst snd].
  - intros [Hn Hne]%andb_true_iff. apply nameOk_spec in Hn as (_ & Hc & _).
    apply negb_true_iff, bool_decide_eq_false in Hne.
    cbn [annotationLoop].
    assert ((0 <? GoStr.len n)%nat = true) as ->
      by (destruct n; [done | by apply Nat.ltb_lt; cbn; lia]).
    by rewrite IndexRune_absent by done.
  - intros [Hn Hv]%andb_true_iff. apply nameOk_spec in Hn as (_ & Hc & _).
    cbn [annotationLoop].
    assert ((0 <? GoStr.len (n +:+ String ":" (quoted v)))%nat = true) as ->.
    { apply Nat.ltb_lt. rewrite len_app. unfold GoStr.len. cbn. lia. }
    rewrite IndexRune_first by done.
    rewrite slice_prefix, sliceFrom_after.
    unfold quoted. rewrite wrapped_len, wrapped_first, wrapped_last, wrapped_inner.
    by rewrite !bool_decide_eq_true_2 by done.
Qed.

(** The token loop on well-formed tokens whose lower-cased names are pairwise
    distinct and not yet in the map: every token adds its entry. *)
Lemma annotationLoop_tokens (tokens : list Token) (m : gmap string Annotation) :
  Forall (λ t, tokenOk t = true) tokens →
  NoDup ((λ t, (tokenEntry t).1) <$> tokens) →
  (∀ t, t ∈ tokens → m !! (tokenEntry t).1 = None) →
  annotationLoop m (renderToken <$> tokens) =
    Ok (list_to_map (tokenEntry <$> tokens) ∪ m).
Proof.
  intros Hok. revert m. induction Hok as [|t tokens Ht Hts IH]; intros m Hnd Hfresh.
  - cbn. by rewrite (left_id_L ∅ (∪)).
  - rewrite fmap_cons. rewrite annotationLoop_token by done.
    rewrite Hfresh by left. rewrite fmap_cons in Hnd.
    apply NoDup_cons in Hnd as [Hnotin Hnd].
    rewrite IH; [| done |].
    + f_equal. rewrite fmap_cons. cbn [list_to_map].
      destruct (tokenEntry t) as [k a] eqn:He. cbn [fst snd] in *.
      change (list_to_map ((k, a) :: (tokenEntry <$> tokens)))
        with (<[k:=a]> (list_to_map (tokenEntry <$> tokens) : gmap string Annotation)).
      rewrite <- insert_union_l. rewrite insert_union_r; [done|].
      apply not_elem_of_list_to_map_1. by rewrite <- list_fmap_compose.
    + intros t' Ht'. rewrite lookup_insert_ne; [apply Hfresh; by right|].
      intros Heq. apply Hnotin. rewrite Heq. apply list_elem_of_fmap. eauto.
Qed.

(** A literal between backquotes or double quotes loses them. *)
Lemma setAnnotations_wrapped p c content :
  c = "`"%char ∨ c = GoStr.dquote →
  setAnnotations p (String c (content +:+ String c "")) = parseContent p content.
Proof.
  intros Hc. unfold setAnnotations, parseContent.
  rewrite wrapped_len, wrapped_first, wrapped_last, wrapped_inner.
  rewrite (bool_decide_eq_true_2 (Some c = Some c)) by done. cbn [andb].
  assert (bool_decide (Some c = Some "`"%char)
          || bool_decide (Some c = Some GoStr.dquote) = true) as ->; [|done].
  destruct Hc as [-> | ->].
  - by rewrite (bool_decide_eq_true_2 (Some "`"%char = Some "`"%char)) by done.
  - rewrite (bool_decide_eq_true_2 (Some GoStr.dquote = Some GoStr.dquote)) by done.
    by rewrite orb_true_r.
Qed.

(** A string that does not start with a delimiter is taken as it is. *)
Lemma setAnnotations_bare p tags :
  (∀ c, GoStr.at_ tags 0 = Some c → c ≠ "`"%char ∧ c ≠ GoStr.dquote) →
  setAnnotations p tags = parseContent p tags.
Proof.
  intros Hhead. unfold setAnnotations, parseContent.
  destruct (GoStr.at_ tags 0) as [c|] eqn:Hc.
  - destruct (Hhead c eq_refl) as [H1 H2].
    rewrite (bool_decide_eq_false_2 (Some c = Some "`"%char)) by congruence.
    rewrite (bool_decide_eq_false_2 (Some c = Some GoStr.dquote)) by congruence.
    by rewrite andb_false_r.
  - rewrite (bool_decide_eq_false_2 (None = Some "`"%char)) by congruence.
    rewrite (bool_decide_eq_false_2 (None = Some GoStr.dquote)) by congruence.
    by rewrite andb_false_r.
Qed.

(** The rendering of a well-formed token has no space, is not empty and
    does not start with a delimiter. *)
Lemma renderToken_no_space t :
  tokenOk t = true → hasByte " " (renderToken t) = false.
Proof.
  destruct t as [n|n v]; cbn [tokenOk renderToken].
  - intros [Hn _]%andb_true_iff. by apply nameOk_spec in Hn as (? & _).
  - intros [Hn Hv]%andb_true_iff. apply nameOk_spec in Hn as (Hs & _).
    apply negb_true_iff in Hv.
    rewrite hasByte_app, Hs. unfold quoted. cbn [hasByte orb].
    rewrite hasByte_app, Hv. by cbn.
Qed.

Lemma renderToken_head t :
  tokenOk t = true →
  ∃ c s, renderToken t = String c s ∧ c ≠ "`"%char ∧ c ≠ GoStr.dquote.
Proof.
  destruct t as [n|n v]; cbn [tokenOk renderToken].
  - intros [Hn Hne]%andb_true_iff. apply nameOk_spec in Hn as (_ & _ & Hq & Hb).
    apply negb_true_iff, bool_decide_eq_false in Hne.
    destruct n as [|c n]; [done|]. exists c, n. cbn in Hq, Hb.
    apply orb_false_iff in Hq as [Hq%bool_decide_eq_false _].
    apply orb_false_iff in Hb as [Hb%bool_decide_eq_false _]. done.
  - intros [Hn _]%andb_true_iff. apply nameOk_spec in Hn as (_ & _ & Hq & Hb).
    destruct n as [|c n]; cbn.
    + eexists _, _. by split_and!.
    + exists c, (n +:+ String ":" (quoted v)). cbn in Hq, Hb.
      apply orb_false_iff in Hq as [Hq%bool_decide_eq_false _].
      apply orb_false_iff in Hb as [Hb%bool_decide_eq_false _]. done.
Qed.



Lemma tokenEntry_key t : (tokenEntry t).1 = ToLower (tokenName t).
Proof. by destruct t. Qed.

End Parser.

(** ** The field loop *)

Section FieldLoop.
Context {GS : GoStrings}.

(** [setAnnotations] does not read the property: it fails, returns the
    property untouched (empty tag), or installs a mapping. *)
Lemma setAnnotations_cases (tags : string) :
  (∃ e, ∀ p, setAnnotations p tags = Err e)
  ∨ (∀ p, setAnnotations p tags = Ok p)
  ∨ (∃ m, ∀ p, setAnnotations p tags = Ok (withAnnotations p m)).
Proof.
  unfold setAnnotations.
  set (tags' := if (_ : bool) then _ else tags).
  case_bool_decide; [by right; left|].
  destruct (annotationLoop ∅ (GoStr.Split tags' " ")) as [m|e]; rsimpl.
  - right; right. by exists m.
  - left. by exists e.
Qed.

(** The parse of a field's tag in terms of [fieldAnnotations]. *)
Lemma parse_fresh entity name (f : Field) :
  match Tag f with
  | Some tag => orPropertyError (setAnnotations (newProperty entity name) tag)
                  (newProperty entity name)
  | None => Ok (newProperty entity name)
  end =
  match fieldAnnotations f with
  | Ok m => Ok (withAnnotations (newProperty entity name) m)
  | Err e => Err (ErrOnProperty e name entity)
  end.
Proof.
  unfold fieldAnnotations. destruct (Tag f) as [tag|]; [|done].
  destruct (setAnnotations_cases tag) as [[e He]|[He|[m He]]]; by rewrite !He.
Qed.

Lemma setType_preserves p t q :
  setType p t = Ok q →
  Name q = Name p ∧ entityName q = entityName p ∧ ObName q = ObName p ∧
  Annotations q = Annotations p ∧ GoType q = t ∧ is_Some (baseType t).
Proof.
  unfold setType. rsimpl. destruct (baseType t) as [[ob fb]|]; [|done]. rsimpl.
  unfold hasAnnotation. rsimpl.
  destruct (bool_decide (is_Some (Annotations p !! "date"))); rsimpl.
  - destruct (bool_decide (ob = "Long")); [|done]. rsimpl.
    destruct (Annotations p !! "link"); rsimpl; intros [= <-]; rsimpl; eauto 10.
  - destruct (Annotations p !! "link"); rsimpl.
    + destruct (bool_decide (ob = "Long")); [|done]. rsimpl.
      intros [= <-]; rsimpl; eauto 10.
    + intros [= <-]; rsimpl; eauto 10.
Qed.

Lemma setIndex_preserves p q :
  setIndex p = Ok q →
  Name q = Name p ∧ entityName q = entityName p ∧ ObName q = ObName p ∧
  Annotations q = Annotations p ∧ GoType q = GoType p ∧
  PRelation q = PRelation p ∧ ObFlags q = ObFlags p.
Proof.
  unfold setIndex. destruct (PIndex p); [done|]. by intros [= <-].
Qed.

Lemma setObFlags_preserves p q :
  setObFlags p = Ok q →
  Name q = Name p ∧ entityName q = entityName p ∧ ObName q = ObName p ∧
  Annotations q = Annotations p ∧ GoType q = GoType p.
Proof.
  unfold setObFlags, setIndex, hasAnnotation.
  repeat (case_match; rsimpl; try done); intros [= <-]; rsimpl; done.
Qed.

(** An iteration is its two halves. *)
Lemma fieldStep_halves (st : Entity * gset string) (f : Field) :
  fieldStep st f =
    match resolveField (EName st.1) f with
    | Err e => Err e
    | Ok None => Ok st
    | Ok (Some property) => acceptProperty st property
    end.
Proof.
  destruct st as [entity names]. unfold fieldStep, resolveField, acceptProperty.
  cbn [fst]. destruct (negb _); [done|].
  set (r := match Tag f with Some _ => _ | None => _ end).
  destruct r as [p1|]; [|done].
  rsimpl. destruct (hasAnnotation p1 "transient"); [done|].
  destruct (orPropertyError (setType p1 (FType f)) p1) as [p2|]; [|done]. rsimpl.
  by destruct (orPropertyError (setObFlags p2) p2) as [p3|].
Qed.

Lemma len_zero (s : string) : (GoStr.len s =? 0)%nat = bool_decide (s = "").
Proof. by destruct s. Qed.

(** The first half, by the names and the annotations of the field. *)
Lemma resolveField_unfold (entity : string) (f : Field) :
  resolveField entity f =
    match Names f with
    | [name] =>
        match fieldAnnotations f with
        | Err e => Err (ErrOnProperty e name entity)
        | Ok m =>
            if bool_decide (is_Some (m !! "transient")) then Ok None
            else
              let p := withAnnotations (newProperty entity name) m in
              p ← orPropertyError (setType p (FType f)) p;
              p ← orPropertyError (setObFlags p) p;
              Ok (Some p)
        end
    | names => Err (ErrInvalidNames entity (length names))
    end.
Proof.
  unfold resolveField. destruct (Names f) as [|name [|name' names]]; [done| |done].
  cbn [length Nat.eqb negb head default]. rewrite parse_fresh.
  destruct (fieldAnnotations f) as [m|e]; [|done]. rsimpl.
  by unfold hasAnnotation.
Qed.

(** A kept field: its single name, its annotations, its type. *)
Lemma resolveField_kept entity f q :
  resolveField entity f = Ok (Some q) →
  ∃ name m, Names f = [name] ∧ fieldAnnotations f = Ok m ∧
    m !! "transient" = None ∧ is_Some (baseType (FType f)) ∧
    Name q = name ∧ entityName q = entity ∧ Annotations q = m ∧
    GoType q = FType f.
Proof.
  rewrite resolveField_unfold.
  destruct (Names f) as [|name [|name' names]]; [done| |done].
  destruct (fieldAnnotations f) as [m|e]; [|done].
  case_bool_decide as Ht; [done|]. apply eq_None_not_Some in Ht. cbv zeta.
  destruct (setType _ (FType f)) as [p1|] eqn:H1; [|done]. rsimpl.
  destruct (setObFlags p1) as [p2|] eqn:H2; [|done]. rsimpl.
  intros [= <-]. apply setType_preserves in H1. apply setObFlags_preserves in H2.
  exists name, m. rsimpl. destruct_and!. split_and!; congruence.
Qed.

(** The storage name of a kept field is that of its property. *)
Lemma storageName_kept entity f q :
  resolveField entity f = Ok (Some q) →
  storageName f = propertyStorageName q.
Proof.
  intros (name & m & Hn & Hm & Ht & _ & Hq & _ & Hqm & _)%resolveField_kept.
  unfold storageName, propertyStorageName. rewrite Hn, Hm, Hqm, Hq.
  by rewrite bool_decide_eq_false_2 by (by rewrite Ht; intros [? ?]).
Qed.

(** A field with a storage name is not dropped. *)
Lemma storageName_not_dropped entity f n :
  storageName f = Some n → resolveField entity f ≠ Ok None.
Proof.
  unfold storageName. rewrite resolveField_unfold.
  destruct (Names f) as [|name [|name' names]]; [done| |done].
  destruct (fieldAnnotations f) as [m|e]; [|done].
  case_bool_decide; [done|]. intros _. cbv zeta.
  destruct (setType _ (FType f)) as [p1|]; [|done]. rsimpl.
  by destruct (setObFlags p1) as [p2|].
Qed.

(** The second half, when it succeeds. *)
Lemma acceptProperty_Ok entity names p entity' names' :
  acceptProperty (entity, names) p = Ok (entity', names') →
  ∃ n, propertyStorageName p = Some n ∧
    (ToLower n ∉ names) ∧ names' = {[ToLower n]} ∪ names ∧
    EName entity' = EName entity ∧
    Properties entity' = Properties entity ++ [withObName p n] ∧
    IdProperty entity' =
      (if hasAnnotation p "id" then Some (length (Properties entity))
       else IdProperty entity) ∧
    (hasAnnotation p "id" = true → IdProperty entity = None).
Proof.
  unfold acceptProperty, propertyStorageName.
  destruct (hasAnnotation p "id") eqn:Hid.
  - destruct (IdProperty entity) eqn:Hi; [done|]. rsimpl.
    destruct (Annotations p !! "nameindb") as [a|].
    + rewrite len_zero. case_bool_decide; [done|]. rsimpl.
      case_bool_decide; [done|]. intros [= <- <-]. rsimpl. eexists; split_and!; done.
    + rsimpl. case_bool_decide; [done|]. intros [= <- <-]. rsimpl. eexists; split_and!; done.
  - rsimpl. destruct (Annotations p !! "nameindb") as [a|].
    + rewrite len_zero. case_bool_decide; [done|]. rsimpl.
      case_bool_decide; [done|]. intros [= <- <-]. rsimpl. eexists; split_and!; done.
    + rsimpl. case_bool_decide; [done|]. intros [= <- <-]. rsimpl. eexists; split_and!; done.
Qed.

(** The second half always fails on a storage name that is recorded. *)
Lemma acceptProperty_duplicate entity names p n :
  propertyStorageName p = Some n → ToLower n ∈ names →
  (hasAnnotation p "id" = true → IdProperty entity = None) →
  acceptProperty (entity, names) p =
    Err (ErrOnProperty ErrDuplicateName (Name p) (entityName p)).
Proof.
  unfold acceptProperty, propertyStorageName. intros Hn Hin Hid.
  assert ((if hasAnnotation p "id" then
             match IdProperty entity with
             | Some _ => Err (ErrMultipleId (EName entity) (idPropertyName entity)
                                (Name p))
             | None => Ok (withIdProperty entity (Some (length (Properties entity))))
             end
           else Ok entity) =
          Ok (if hasAnnotation p "id"
              then withIdProperty entity (Some (length (Properties entity)))
              else entity)) as ->.
  { destruct (hasAnnotation p "id"); [|done]. by rewrite Hid. }
  rsimpl. destruct (Annotations p !! "nameindb") as [a|].
  - rewrite len_zero. case_bool_decide; [done|]. injection Hn as <-. rsimpl.
    by rewrite bool_decide_eq_true_2.
  - injection Hn as <-. rsimpl. by rewrite bool_decide_eq_true_2.
Qed.

Lemma fieldLoop_app st l1 l2 :
  fieldLoop st (l1 ++ l2) = fieldLoop st l1 ≫= λ st', fieldLoop st' l2.
Proof.
  revert st. induction l1 as [|f l1 IH]; intros st; [done|].
  cbn [app fieldLoop]. destruct (fieldStep st f) as [st'|]; [|done].
  rsimpl. apply IH.
Qed.

Lemma loopInv_initial name : loopInv name [] (initialState name).
Proof.
  split; cbn; try done.
  - intros f n Hf. by apply elem_of_nil in Hf.
  - intros p Hp. by apply elem_of_nil in Hp.
  - intros f q Hf. by apply elem_of_nil in Hf.
  - intros f Hf. by apply elem_of_nil in Hf.
Qed.

(** An iteration maintains the invariant. *)
Lemma loopInv_step name fs st f st' :
  loopInv name fs st → fieldStep st f = Ok st' → loopInv name (fs ++ [f]) st'.
Proof.
  intros [Hname Hnames Hat His Hfrom Hkept Hres']. rewrite fieldStep_halves, Hname.
  destruct (resolveField name f) as [[q|]|] eqn:Hres; [| |done].
  - destruct st as [entity names], st' as [entity' names']. cbn [fst snd] in *.
    intros (n & Hn & Hfresh & -> & Hname' & Hprops & Hid & Hidnone)%acceptProperty_Ok.
    split; cbn [fst snd].
    + congruence.
    + intros f' n' [Hf'| ->%list_elem_of_singleton]%elem_of_app Hs.
      * apply elem_of_union_r. eauto.
      * rewrite (storageName_kept _ _ _ Hres), Hn in Hs. injection Hs as <-.
        apply elem_of_union_l. by apply elem_of_singleton.
    + intros j p. rewrite Hprops, Hid. intros Hj Hp.
      destruct (decide (j < length (Properties entity))%nat) as [Hlt|Hge].
      * rewrite lookup_app_l in Hj by done.
        pose proof (Hat j p Hj Hp) as Hsome.
        destruct (hasAnnotation q "id"); [|done].
        rewrite Hidnone in Hsome by done. done.
      * apply lookup_app_Some in Hj as [Hj|[_ Hj]];
          [apply lookup_lt_Some in Hj; lia|].
        apply list_lookup_singleton_Some in Hj as [Hj <-].
        change (hasAnnotation (withObName q n) "id") with (hasAnnotation q "id") in Hp.
        rewrite Hp. f_equal. lia.
    + intros i. rewrite Hprops, Hid.
      destruct (hasAnnotation q "id") eqn:Hq.
      * intros [= <-]. exists (withObName q n). split; [|done].
        rewrite lookup_app_r by done. by rewrite Nat.sub_diag.
      * intros (p & Hp & Hpid)%His. exists p. split; [|done].
        by apply lookup_app_l_Some.
    + intros p. rewrite Hprops.
      intros [Hp| ->%list_elem_of_singleton]%elem_of_app.
      * destruct (Hfrom p Hp) as (f' & q' & ? & ? & ?).
        exists f', q'. split_and!; [|done..]. apply elem_of_app. by left.
      * exists f, q. split_and!; [|done..]. apply elem_of_app. right.
        by apply list_elem_of_singleton.
    + intros f' q' [Hf'| ->%list_elem_of_singleton]%elem_of_app Hr.
      * destruct (Hkept f' q' Hf' Hr) as (j & n' & Hj).
        exists j, n'. rewrite Hprops. by apply lookup_app_l_Some.
      * rewrite Hres in Hr. injection Hr as <-.
        exists (length (Properties entity)), n. rewrite Hprops.
        rewrite lookup_app_r by done. by rewrite Nat.sub_diag.
    + intros f' [Hf'| ->%list_elem_of_singleton]%elem_of_app; eauto.
  - intros [= <-]. split; try done.
    + intros f' n' [Hf'| ->%list_elem_of_singleton]%elem_of_app Hs; [eauto|].
      by apply (storageName_not_dropped name) in Hs.
    + intros p Hp. destruct (Hfrom p Hp) as (f' & q' & ? & ? & ?).
      exists f', q'. split_and!; [|done..]. apply elem_of_app. by left.
    + intros f' q' [Hf'| ->%list_elem_of_singleton]%elem_of_app Hr; [eauto|].
      congruence.
    + intros f' [Hf'| ->%list_elem_of_singleton]%elem_of_app; eauto.
Qed.

Lemma loopInv_loop name fs st l st' :
  loopInv name fs st → fieldLoop st l = Ok st' → loopInv name (fs ++ l) st'.
Proof.
  revert fs st. induction l as [|f l IH]; intros fs st Hinv.
  - intros [= <-]. by rewrite app_nil_r.
  - cbn [fieldLoop]. destruct (fieldStep st f) as [st1|] eqn:Hstep; [|done].
    rsimpl. intros Hl. rewrite (cons_middle f), (assoc_L (++)).
    eapply IH; [|done]. by eapply loopInv_step.
Qed.

(** The invariant holds whenever the loop of [createEntityFromAst] ends. *)
Lemma fieldLoop_inv name fields st :
  fieldLoop (initialState name) fields = Ok st → loopInv name fields st.
Proof. apply (loopInv_loop name [] _ fields), loopInv_initial. Qed.

Lemma fieldLoop_error_at st pre f post st1 e :
  fieldLoop st pre = Ok st1 → fieldStep st1 f = Err e →
  fieldLoop st (pre ++ f :: post) = Err e.
Proof.
  intros Hpre Hf. rewrite fieldLoop_app, Hpre. rsimpl. cbn [fieldLoop].
  by rewrite Hf.
Qed.

(** A field on which every iteration fails makes the loop fail. *)
Lemma fieldLoop_failing_field st pre f post :
  (∀ st', isErr (fieldStep st' f)) → isErr (fieldLoop st (pre ++ f :: post)).
Proof.
  intros Hf. rewrite fieldLoop_app.
  destruct (fieldLoop st pre) as [st1|]; [|done]. rsimpl. cbn [fieldLoop].
  specialize (Hf st1). by destruct (fieldStep st1 f).
Qed.

(** A field that every iteration skips can be left out. *)
Lemma fieldLoop_skipped_field st pre f post :
  (∀ st', fieldStep st' f = Ok st') →
  fieldLoop st (pre ++ f :: post) = fieldLoop st (pre ++ post).
Proof.
  intros Hf. rewrite !fieldLoop_app.
  destruct (fieldLoop st pre) as [st1|]; [|done]. rsimpl. cbn [fieldLoop].
  by rewrite Hf.
Qed.

(** Two fields on which every iteration does the same can be exchanged. *)
Lemma fieldLoop_same_step st pre f f' post :
  (∀ st', fieldStep st' f = fieldStep st' f') →
  fieldLoop st (pre ++ f :: post) = fieldLoop st (pre ++ f' :: post).
Proof.
  intros Hf. rewrite !fieldLoop_app.
  destruct (fieldLoop st pre) as [st1|]; [|done]. rsimpl. cbn [fieldLoop].
  by rewrite Hf.
Qed.

Lemma createEntityFromAst_loop_error b fields children e :
  fieldLoop (initialState (currentEntityName b)) fields = Err e →
  createEntityFromAst b (StructType fields children) = (b, Some e).
Proof.
  intros He. unfold createEntityFromAst, entityFromAst.
  change (newEntity (currentEntityName b), ∅)
    with (initialState (currentEntityName b)).
  by rewrite He.
Qed.

Lemma createEntityFromAst_loop_isErr b fields children :
  isErr (fieldLoop (initialState (currentEntityName b)) fields) →
  ∃ e, createEntityFromAst b (StructType fields children) = (b, Some e).
Proof.
  destruct (fieldLoop _ fields) as [|e] eqn:He; [done|]. intros _.
  exists e. by apply createEntityFromAst_loop_error.
Qed.

(** [createEntityFromAst] reads the fields through the loop only. *)
Lemma createEntityFromAst_same_loop b fields fields' children :
  fieldLoop (initialState (currentEntityName b)) fields =
  fieldLoop (initialState (currentEntityName b)) fields' →
  createEntityFromAst b (StructType fields children) =
  createEntityFromAst b (StructType fields' children).
Proof.
  intros He. unfold createEntityFromAst, entityFromAst.
  change (newEntity (currentEntityName b), ∅)
    with (initialState (currentEntityName b)).
  by rewrite He.
Qed.

(** C7 (as amended): when two kept fields have storage names that are equal
    after lower-casing, whichever is declared first, the build fails; the
    error is the duplicate-name error on the later field unless another check
    fails before it (in an earlier field, in the resolution of the later
    field, or in its identity check). *)
Theorem duplicate_storage_name (b : Binding) (pre mid post : list Field)
    (f1 f2 : Field) (n1 n2 : string) (children : list Node) :
  storageName f1 = Some n1 → storageName f2 = Some n2 →
  ToLower n1 = ToLower n2 →
  let name := currentEntityName b in
  let node := StructType (pre ++ f1 :: mid ++ f2 :: post) children in
  (∃ e, createEntityFromAst b node = (b, Some e)) ∧
  (∀ st q,
     fieldLoop (initialState name) (pre ++ f1 :: mid) = Ok st →
     resolveField name f2 = Ok (Some q) →
     (hasAnnotation q "id" = true → IdProperty st.1 = None) →
     createEntityFromAst b node =
       (b, Some (ErrOnProperty ErrDuplicateName (Name q) name))).
Proof.
  intros H1 H2 Hlow name node.
  assert (∀ st, fieldLoop (initialState name) (pre ++ f1 :: mid) = Ok st →
                ToLower n2 ∈ st.2) as Hrecorded.
  { intros st Hst. apply fieldLoop_inv in Hst. rewrite <- Hlow.
    apply (inv_names _ _ _ Hst f1); [|done].
    apply elem_of_app. right. by left. }
  assert (pre ++ f1 :: mid ++ f2 :: post = (pre ++ f1 :: mid) ++ f2 :: post)
    as Hsplit by (by rewrite <- (assoc_L (++))).
  split.
  - apply createEntityFromAst_loop_isErr. rewrite Hsplit, fieldLoop_app.
    destruct (fieldLoop _ (pre ++ f1 :: mid)) as [st|] eqn:Hst; [|done].
    rsimpl. cbn [fieldLoop]. rewrite fieldStep_halves.
    pose proof (fieldLoop_inv _ _ _ Hst) as Hinv. rewrite (inv_name _ _ _ Hinv).
    destruct (resolveField name f2) as [[q|]|] eqn:Hres; [| |done].
    + pose proof (storageName_kept _ _ _ Hres) as Hq. rewrite H2 in Hq.
      destruct st as [entity names].
      destruct (acceptProperty (entity, names) q) as [[entity' names']|] eqn:Hacc;
        [|done].
      apply acceptProperty_Ok in Hacc as (n & Hn & Hfresh & _).
      rewrite <- Hq in Hn. injection Hn as <-.
      destruct Hfresh. by apply (Hrecorded (entity, names)).
    + by apply (storageName_not_dropped name) in H2.
  - intros st q Hst Hres Hid. apply createEntityFromAst_loop_error.
    rewrite Hsplit. apply (fieldLoop_error_at _ _ _ _ st); [done|].
    pose proof (fieldLoop_inv _ _ _ Hst) as Hinv.
    rewrite fieldStep_halves, (inv_name _ _ _ Hinv), Hres.
    destruct st as [entity names].
    rewrite (acceptProperty_duplicate entity names q n2).
    + apply resolveField_kept in Hres as (? & ? & _ & _ & _ & _ & _ & -> & _).
      done.
    + by rewrite <- (storageName_kept _ _ _ Hres).
    + by apply (Hrecorded _ Hst).
    + done.
Qed.

(** C9: the tag of a field is parsed before the [transient] exit is taken,
    so a field whose tag does not parse fails the build (with that error on
    the field, when the loop reaches it); a field that binds one name and
    whose tag parses to a mapping with [transient] is skipped before its type
    is looked at: whatever its declared type, the build is the one of the
    struct without the field. *)
Theorem transient_field (b : Binding) (pre post : list Field) (f : Field)
    (children : list Node) :
  let name := currentEntityName b in
  let node := StructType (pre ++ f :: post) children in
  (∀ e, fieldAnnotations f = Err e →
     (∃ e', createEntityFromAst b node = (b, Some e')) ∧
     (∀ st n, fieldLoop (initialState name) pre = Ok st → Names f = [n] →
        createEntityFromAst b node = (b, Some (ErrOnProperty e n name)))) ∧
  (∀ m n, fieldAnnotations f = Ok m → is_Some (m !! "transient") →
     Names f = [n] →
     (∀ st, fieldStep st f = Ok st) ∧
     createEntityFromAst b node =
       createEntityFromAst b (StructType (pre ++ post) children)) ∧
  (∀ m t, fieldAnnotations f = Ok m → is_Some (m !! "transient") →
     createEntityFromAst b node =
       createEntityFromAst b (StructType (pre ++ withFType f t :: post) children)).
Proof.
  intros name node. split_and!.
  - intros e He.
    assert (∀ st, isErr (fieldStep st f)) as Hfail.
    { intros st. rewrite fieldStep_halves, resolveField_unfold, He.
      by destruct (Names f) as [|? [|? ?]]. }
    split.
    + by apply createEntityFromAst_loop_isErr, fieldLoop_failing_field.
    + intros st n Hst Hn. apply createEntityFromAst_loop_error.
      apply (fieldLoop_error_at _ _ _ _ st); [done|].
      pose proof (fieldLoop_inv _ _ _ Hst) as Hinv.
      rewrite fieldStep_halves, resolveField_unfold, He, Hn.
      by rewrite (inv_name _ _ _ Hinv).
  - intros m n Hm Ht Hn.
    assert (∀ st, fieldStep st f = Ok st) as Hskip.
    { intros st. rewrite fieldStep_halves, resolveField_unfold, Hm, Hn.
      by rewrite bool_decide_eq_true_2. }
    split; [done|].
    by apply createEntityFromAst_same_loop, fieldLoop_skipped_field.
  - intros m t Hm Ht.
    apply createEntityFromAst_same_loop, fieldLoop_same_step. intros st.
    rewrite !fieldStep_halves, !resolveField_unfold.
    unfold fieldAnnotations in *. cbn [withFType Names Tag FType].
    destruct (Names f) as [|n [|n' ns]]; [done| |done].
    unfold fieldAnnotations in Hm. rewrite Hm.
    by rewrite bool_decide_eq_true_2.
Qed.

End FieldLoop.

Lemma duplicate_storage_name_witness :
  let f1 := {| Names := ["Name"]; FType := "string"; Tag := None |} in
  let f2 := {| Names := ["Title"]; FType := "string";
               Tag := Some (rawTag ("nameInDb:" +:+ quoted "NAME")) |} in
  let b := withCurrentEntityName newBinding "Book" in
  @storageName AsciiStrings f1 = Some "Name" ∧
  @storageName AsciiStrings f2 = Some "NAME" ∧
  @createEntityFromAst AsciiStrings b (StructType [f1; f2] []) =
    (b, Some (ErrOnProperty ErrDuplicateName "Title" "Book")).
Proof.
  split_and!; [reflexivity..|].
  etrans.
  - refine (proj2 (@duplicate_storage_name AsciiStrings
                     (withCurrentEntityName newBinding "Book") [] [] []
                     {| Names := ["Name"]; FType := "string"; Tag := None |}
                     {| Names := ["Title"]; FType := "string";
                        Tag := Some (rawTag ("nameInDb:" +:+ quoted "NAME")) |}
                     "Name" "NAME" [] _ _ _) _ _ _ _ _);
      [reflexivity.. | discriminate].
  - reflexivity.
Defined.

(** C7 (as stated) fails: the later of the two fields has a type that is
    not in the table, and the build fails with the unknown-type error, not
    with the duplicate-name error. *)
Lemma duplicate_storage_name_counterexample :
  let f1 := {| Names := ["Title"]; FType := "string"; Tag := None |} in
  let f2 := {| Names := ["title"]; FType := "Text"; Tag := None |} in
  let b := withCurrentEntityName newBinding "Book" in
  @storageName AsciiStrings f1 = Some "Title" ∧
  @storageName AsciiStrings f2 = Some "title" ∧
  @ToLower AsciiStrings "Title" = @ToLower AsciiStrings "title" ∧
  @createEntityFromAst AsciiStrings b (StructType [f1; f2] []) =
    (b, Some (ErrOnProperty (ErrUnknownType "Text") "title" "Book")).
Proof. split_and!; reflexivity. Qed.

Lemma transient_field_witness :
  let f := {| Names := ["Cache"]; FType := "map[string]int";
              Tag := Some (rawTag "transient") |} in
  let id := {| Names := ["Id"]; FType := "uint64"; Tag := None |} in
  let b := withCurrentEntityName newBinding "Book" in
  @fieldAnnotations AsciiStrings f = Ok {[ "transient" := {| Value := "" |} ]} ∧
  @createEntityFromAst AsciiStrings b (StructType [id; f] []) =
  @createEntityFromAst AsciiStrings b (StructType [id] []).
Proof.
  split; [reflexivity|].
  refine (proj2 (proj1 (proj2 (@transient_field AsciiStrings
                   (withCurrentEntityName newBinding "Book")
                   [{| Names := ["Id"]; FType := "uint64"; Tag := None |}] []
                   {| Names := ["Cache"]; FType := "map[string]int";
                      Tag := Some (rawTag "transient") |} []))
                 {[ "transient" := {| Value := "" |} ]} "Cache" _ _ _));
    [reflexivity | by eexists | reflexivity].
Defined.

(** ** The identity property *)

Section Identity.
Context {GS : GoStrings}.

(** The lookup by name once an identity is set: any further candidate is an
    error. *)
Lemma idByNameLoop_set e i j rest :
  IdProperty e = Some j →
  idByNameLoop e i rest =
    match filter (λ p, isIdByName p = true) rest with
    | [] => Ok e
    | _ => Err (ErrIdAmbiguous (EName e))
    end.
Proof.
  intros Hj. revert i. induction rest as [|p rest IH]; intros i; [done|].
  cbn [idByNameLoop]. rewrite filter_cons.
  destruct (isIdByName p) eqn:Hp.
  - rewrite decide_True by done. by rewrite Hj.
  - rewrite decide_False by done. apply IH.
Qed.

(** The lookup by name on an entity without identity, by the number of
    candidates among the properties visited. *)
Lemma idByNameLoop_unset e i rest :
  IdProperty e = None →
  match filter (λ p, isIdByName p = true) rest with
  | [] => idByNameLoop e i rest = Ok e
  | [c] => ∃ k, rest !! k = Some c ∧
                idByNameLoop e i rest = Ok (adoptId e (i + k))
  | _ => idByNameLoop e i rest = Err (ErrIdAmbiguous (EName e))
  end.
Proof.
  intros Hnone. revert i. induction rest as [|p rest IH]; intros i; [done|].
  cbn [idByNameLoop]. rewrite filter_cons.
  destruct (isIdByName p) eqn:Hp.
  - rewrite decide_True by done. rewrite Hnone.
    rewrite (idByNameLoop_set _ _ i) by done.
    destruct (filter _ rest) as [|c cs]; [|done].
    exists 0%nat. split; [done|]. by rewrite Nat.add_0_r.
  - rewrite decide_False by done.
    specialize (IH (S i)). destruct (filter _ rest) as [|c [|c' cs]]; [done| |done].
    destruct IH as (k & Hk & IH). exists (S k). split; [done|].
    by rewrite IH, Nat.add_succ_r.
Qed.

(** [createEntityFromAst] after a field loop that ends without identity. *)
Lemma createEntityFromAst_by_name b fields children entity names :
  fieldLoop (initialState (currentEntityName b)) fields = Ok (entity, names) →
  IdProperty entity = None → Properties entity ≠ [] →
  match filter (λ p, isIdByName p = true) (Properties entity) with
  | [] => createEntityFromAst b (StructType fields children) =
            (b, Some (ErrIdMissing (currentEntityName b)))
  | [c] => ∃ i, Properties entity !! i = Some c ∧
             createEntityFromAst b (StructType fields children) =
               (withEntities b (Entities b ++ [adoptId entity i]), None)
  | _ => createEntityFromAst b (StructType fields children) =
           (b, Some (ErrIdAmbiguous (currentEntityName b)))
  end.
Proof.
  intros Hloop Hnone Hne.
  pose proof (inv_name _ _ _ (fieldLoop_inv _ _ _ Hloop)) as Hname.
  cbn [fst] in Hname.
  unfold createEntityFromAst, entityFromAst.
  change (newEntity (currentEntityName b), ∅)
    with (initialState (currentEntityName b)).
  rewrite Hloop. rsimpl.
  assert ((length (Properties entity) =? 0)%nat = false) as ->
    by (destruct (Properties entity); [done | by apply Nat.eqb_neq]).
  rewrite Hnone.
  pose proof (idByNameLoop_unset entity 0 (Properties entity) Hnone) as Hby.
  destruct (filter _ (Properties entity)) as [|c [|c' cs]].
  - rewrite Hby. rsimpl. by rewrite Hnone, Hname.
  - destruct Hby as (k & Hk & ->). exists k. by split.
  - rewrite Hby. rsimpl. by rewrite Hname.
Qed.

(** Without [id] annotation on any field the loop ends without identity. *)
Lemma fieldLoop_no_id name fields st :
  fieldLoop (initialState name) fields = Ok st →
  (∀ f m, f ∈ fields → fieldAnnotations f = Ok m → m !! "id" = None) →
  IdProperty st.1 = None.
Proof.
  intros Hinv%fieldLoop_inv Hnoid.
  destruct (IdProperty st.1) as [i|] eqn:Hi; [|done].
  destruct (inv_id_is _ _ _ Hinv i Hi) as (p & Hp & Hid).
  destruct (inv_from _ _ _ Hinv p) as (f & q & Hf & Hq & Hpq);
    [by eapply list_elem_of_lookup_2|].
  apply resolveField_kept in Hq as (n & m & _ & Hm & _ & _ & _ & _ & Hqm & _).
  apply hasAnnotation_true in Hid. rewrite Hpq in Hid. rsimpl.
  rewrite Hqm, (Hnoid f m Hf Hm) in Hid. by destruct Hid.
Qed.

Lemma acceptProperty_second_id entity names p j :
  hasAnnotation p "id" = true → IdProperty entity = Some j →
  acceptProperty (entity, names) p =
    Err (ErrMultipleId (EName entity) (idPropertyName entity) (Name p)).
Proof. intros Hp Hj. unfold acceptProperty. by rewrite Hp, Hj. Qed.

(** A kept field with [id] that the loop has gone through is the identity. *)
Lemma fieldLoop_id_field name fields st f n :
  fieldLoop (initialState name) fields = Ok st → f ∈ fields → keptWithId f n →
  is_Some (IdProperty st.1) ∧ idPropertyName st.1 = n.
Proof.
  intros Hinv%fieldLoop_inv Hf (Hn & m & Hm & Hid & Ht).
  destruct (inv_resolved _ _ _ Hinv f Hf) as [r Hr].
  assert (∃ q, r = Some q) as [q ->].
  { destruct r as [q|]; [by eexists|]. exfalso. revert Hr.
    rewrite resolveField_unfold, Hn, Hm.
    rewrite bool_decide_eq_false_2 by (by rewrite Ht; intros [? ?]). cbv zeta.
    destruct (setType _ (FType f)) as [p1|]; [|done]. rsimpl.
    by destruct (setObFlags p1). }
  destruct (inv_kept _ _ _ Hinv f q Hf Hr) as (j & n' & Hj).
  apply resolveField_kept in Hr as (n0 & m0 & Hn0 & Hm0 & _ & _ & Hq & _ & Hqm & _).
  rewrite Hn in Hn0. injection Hn0 as <-. rewrite Hm in Hm0. injection Hm0 as <-.
  assert (IdProperty st.1 = Some j) as Hidj.
  { apply (inv_id_at _ _ _ Hinv j _ Hj). apply hasAnnotation_true. rsimpl.
    by rewrite Hqm. }
  split; [by rewrite Hidj|].
  unfold idPropertyName. rewrite Hidj. cbn. by rewrite Hj.
Qed.

(** The types of the table are lower-case ASCII: [ToLower] leaves them. *)
Lemma baseType_lower t : is_Some (baseType t) → ToLower t = t.
Proof.
  unfold baseType.
  repeat (case_bool_decide as Ht; cbn [orb];
          [intros _; subst t; by rewrite ToLower_ascii |]; clear Ht).
  by intros [? ?].
Qed.

(** On a property the loop has kept, the test of the lookup by name is the
    test of a candidate. *)
Lemma isIdByName_candidate name fields st p :
  fieldLoop (initialState name) fields = Ok st → p ∈ Properties st.1 →
  isIdByName p = idCandidate p.
Proof.
  intros Hinv%fieldLoop_inv Hp.
  destruct (inv_from _ _ _ Hinv p Hp) as (f & q & _ & Hq & Hpq).
  apply resolveField_kept in Hq as (_ & _ & _ & _ & _ & Hbase & _ & _ & _ & Hty).
  assert (GoType p = FType f) as Hp' by (by rewrite Hpq).
  unfold isIdByName, idCandidate. rewrite Hp'.
  by rewrite (baseType_lower (FType f)) by done.
Qed.

Lemma filter_candidates name fields st :
  fieldLoop (initialState name) fields = Ok st →
  filter (λ p, isIdByName p = true) (Properties st.1) =
  filter (λ p, idCandidate p = true) (Properties st.1).
Proof.
  intros Hst.
  assert (∀ l : list Property, (∀ p, p ∈ l → p ∈ Properties st.1) →
               filter (λ p, isIdByName p = true) l =
               filter (λ p, idCandidate p = true) l) as Hl.
  { induction l as [|p l IH]; intros Hin; [done|].
    rewrite !filter_cons, IH by (intros; apply Hin; by right).
    rewrite (isIdByName_candidate _ _ _ p Hst) by (apply Hin; by left).
    by destruct (idCandidate p). }
  by apply Hl.
Qed.

(** C2 (as amended).  When two kept (not [transient]) fields carry the [id]
    annotation, the build fails, and with the error naming both fields
    when no other check fails before the second of them is resolved.  When
    no field carries the [id] annotation and the field loop ends with at
    least one property, the candidates are the properties whose name
    lower-cases to [id] and whose declared type is [uint64]: with none the
    build fails with the missing-id error, with exactly one it succeeds, the
    candidate being the identity property and carrying one more flag, [ID],
    and with two or more it fails. *)
Theorem identity_property (b : Binding) (fields : list Field)
    (children : list Node) :
  let name := currentEntityName b in
  let node := StructType fields children in
  (∀ pre f1 mid f2 post n1 n2,
     fields = pre ++ f1 :: mid ++ f2 :: post →
     keptWithId f1 n1 → keptWithId f2 n2 →
     (∃ e, createEntityFromAst b node = (b, Some e)) ∧
     (∀ st q, fieldLoop (initialState name) (pre ++ f1 :: mid) = Ok st →
        resolveField name f2 = Ok (Some q) →
        createEntityFromAst b node = (b, Some (ErrMultipleId name n1 n2)))) ∧
  (∀ st, fieldLoop (initialState name) fields = Ok st →
     (∀ f m, f ∈ fields → fieldAnnotations f = Ok m → m !! "id" = None) →
     Properties st.1 ≠ [] →
     match filter (λ p, idCandidate p = true) (Properties st.1) with
     | [] => createEntityFromAst b node = (b, Some (ErrIdMissing name))
     | [c] => ∃ i, Properties st.1 !! i = Some c ∧
                createEntityFromAst b node =
                  (withEntities b (Entities b ++ [adoptId st.1 i]), None)
     | _ => createEntityFromAst b node = (b, Some (ErrIdAmbiguous name))
     end).
Proof.
  intros name node. split.
  - intros pre f1 mid f2 post n1 n2 -> Hk1 Hk2.
    assert (pre ++ f1 :: mid ++ f2 :: post = (pre ++ f1 :: mid) ++ f2 :: post)
      as Hsplit by (by rewrite <- (assoc_L (++))).
    assert (∀ st q, fieldLoop (initialState name) (pre ++ f1 :: mid) = Ok st →
              resolveField name f2 = Ok (Some q) →
              fieldStep st f2 = Err (ErrMultipleId name n1 n2)) as Hstep.
    { intros st q Hst Hres.
      destruct (fieldLoop_id_field _ _ _ f1 n1 Hst) as [[j Hj] Hidn];
        [apply elem_of_app; right; by left | done |].
      pose proof (inv_name _ _ _ (fieldLoop_inv _ _ _ Hst)) as Hname.
      rewrite fieldStep_halves, Hname, Hres. destruct st as [entity names].
      cbn [fst] in *.
      destruct Hk2 as (Hn2 & m2 & Hm2 & Hid2 & _).
      apply resolveField_kept in Hres
        as (n0 & m0 & Hn0 & Hm0 & _ & _ & Hq & _ & Hqm & _).
      rewrite Hn2 in Hn0. injection Hn0 as <-.
      rewrite Hm2 in Hm0. injection Hm0 as <-.
      rewrite (acceptProperty_second_id _ _ _ j); [|by apply hasAnnotation_true;
        rewrite Hqm | done].
      by rewrite Hname, Hidn, Hq. }
    split.
    + apply createEntityFromAst_loop_isErr. subst node. rewrite Hsplit, fieldLoop_app.
      destruct (fieldLoop _ (pre ++ f1 :: mid)) as [st|] eqn:Hst; [|done].
      rsimpl. cbn [fieldLoop].
      destruct (resolveField name f2) as [[q|]|] eqn:Hres.
      * by rewrite (Hstep st q).
      * exfalso. destruct Hk2 as (Hn2 & m2 & Hm2 & _ & Ht2). revert Hres.
        rewrite resolveField_unfold, Hn2, Hm2.
        rewrite bool_decide_eq_false_2 by (by rewrite Ht2; intros [? ?]). cbv zeta.
        destruct (setType _ (FType f2)) as [p1|]; [|done]. rsimpl.
        by destruct (setObFlags p1).
      * rewrite fieldStep_halves.
        rewrite (inv_name _ _ _ (fieldLoop_inv _ _ _ Hst)). by rewrite Hres.
    + intros st q Hst Hres. apply createEntityFromAst_loop_error.
      rewrite Hsplit. apply (fieldLoop_error_at _ _ _ _ st); [done|].
      by apply (Hstep st q).
  - intros [entity names] Hst Hnoid Hne.
    rewrite <- (filter_candidates _ _ _ Hst).
    apply createEntityFromAst_by_name with (names := names); [done| |done].
    by apply (fieldLoop_no_id _ _ _ Hst).
Qed.

End Identity.

Lemma identity_property_witness :
  let id := {| Names := ["Id"]; FType := "uint64"; Tag := None |} in
  let nm := {| Names := ["Name"]; FType := "string"; Tag := Some (rawTag "unique") |} in
  let b := withCurrentEntityName newBinding "User" in
  ∃ e, @createEntityFromAst AsciiStrings b (StructType [id; nm] []) =
         (withEntities b [e], None) ∧
       IdProperty e = Some 0%nat ∧
       (Name <$> Properties e) = ["Id"; "Name"] ∧
       (ObFlags <$> Properties e) = [["ID"]; ["UNIQUE"]].
Proof.
  intros id nm b.
  eassert (@fieldLoop AsciiStrings (initialState "User") [id; nm] = Ok _) as Hst
    by (vm_compute; reflexivity).
  assert (∀ f m, f ∈ [id; nm] → @fieldAnnotations AsciiStrings f = Ok m →
                 m !! "id" = None) as Hnoid.
  { intros f m Hf. apply list_elem_of_In in Hf.
    destruct Hf as [<-|[<-|[]]]; intros [= <-]; reflexivity. }
  pose proof (proj2 (@identity_property AsciiStrings b [id; nm] [])
                _ Hst Hnoid) as H.
  cbn [fst Properties] in H. specialize (H ltac:(discriminate)).
  rewrite filter_cons_True in H by (vm_compute; reflexivity).
  rewrite filter_cons_False in H by (vm_compute; discriminate).
  rewrite filter_nil in H. destruct H as (i & Hi & Hbuild).
  destruct i as [|[|i]]; [|discriminate Hi..].
  rewrite Hbuild. eexists. split; [reflexivity|].
  split_and!; vm_compute; reflexivity.
Defined.

(** C2 (as stated) fails: two fields carry the [id] annotation, the second
    one is [transient] and dropped, and the build succeeds. *)
Lemma identity_property_counterexample :
  let f1 := {| Names := ["Key"]; FType := "uint64"; Tag := Some (rawTag "id") |} in
  let f2 := {| Names := ["Old"]; FType := "uint64";
               Tag := Some (rawTag "id transient") |} in
  let b := withCurrentEntityName newBinding "User" in
  (∃ m1 m2, @fieldAnnotations AsciiStrings f1 = Ok m1 ∧ is_Some (m1 !! "id") ∧
            @fieldAnnotations AsciiStrings f2 = Ok m2 ∧ is_Some (m2 !! "id")) ∧
  (@createEntityFromAst AsciiStrings b (StructType [f1; f2] [])).2 = None.
Proof.
  split; [|reflexivity].
  eexists _, _. split_and!; [reflexivity | by eexists | reflexivity | by eexists].
Qed.

(** ** Blank [nameindb] values *)

Section NameInDb.
Context {GS : GoStrings}.








End NameInDb.



(** ** The sticky error *)

Section Walk.
Context {S : Type} (fn : S → Node → S * bool).

(** Induction on syntax trees, with the property available for the nodes
    below. *)
Lemma Node_children_ind (P : Node → Prop) :
  (∀ node, Forall P (children node) → P node) → ∀ node, P node.
Proof.
  intros H. fix IH 1. intros node. apply H.
  destruct node as [|c|c|name c|fields c|c]; cbn [children];
    [constructor | ..];
    (revert c; fix IHc 1; intros [|x c]; constructor; [apply IH | apply IHc]).
Qed.

Lemma walk_unfold (s : S) (node : Node) :
  walk fn s node =
    if (fn s node).2
    then (fn (foldl (walk fn) (fn s node).1 (children node)) Nil).1
    else (fn s node).1.
Proof. destruct node; cbn [walk children]; by destruct (fn s _).2. Qed.

(** A relation between the states before and after a piece of the walk that
    every invocation of the callback respects is respected by the walk. *)
Lemma walk_preserves (R : S → S → Prop) :
  (∀ s, R s s) → (∀ s1 s2 s3, R s1 s2 → R s2 s3 → R s1 s3) →
  (∀ s node, R s (fn s node).1) →
  ∀ node s, R s (walk fn s node).
Proof.
  intros Hrefl Htrans Hstep.
  induction node as [node IH] using Node_children_ind. intros s.
  rewrite walk_unfold. destruct (fn s node).2 eqn:Hd; [|apply Hstep].
  apply (Htrans _ (foldl (walk fn) (fn s node).1 (children node)));
    [|apply Hstep].
  apply (Htrans _ (fn s node).1); [apply Hstep|].
  generalize (fn s node).1. induction IH as [|x c Hx Hc IHc]; intros s'; [done|].
  cbn [foldl]. apply (Htrans _ (walk fn s' x)); [apply Hx | apply IHc].
Qed.

End Walk.

Section Logged.
Context {S : Type} (fn : S → Node → S * bool).

(** Logging does not change the walk. *)
Lemma walk_logged (node : Node) (s : S) (log : list S) :
  (walk (logged fn) (s, log) node).1 = walk fn s node.
Proof.
  revert s log. induction node as [node IH] using Node_children_ind.
  intros s log. rewrite !walk_unfold. cbn [logged fst snd].
  destruct (fn s node).2; [|done].
  assert (∀ s' log', (foldl (walk (logged fn)) (s', log') (children node)).1 =
                     foldl (walk fn) s' (children node)) as Hfold.
  { induction IH as [|x c Hx Hc IHc]; intros s' log'; [done|]. cbn [foldl].
    specialize (Hx s' log').
    destruct (walk (logged fn) (s', log') x) as [s'' log'']. cbn [fst] in Hx.
    rewrite <- Hx. apply IHc. }
  by rewrite Hfold.
Qed.

(** A preorder on states that every invocation of the callback respects
    relates every state of the log to the state in which the walk ends. *)
Lemma walk_log_preorder (P : S → S → Prop) :
  (∀ s, P s s) → (∀ s1 s2 s3, P s1 s2 → P s2 s3 → P s1 s3) →
  (∀ s node, P s (fn s node).1) →
  ∀ node s log,
    let r := walk (logged fn) (s, log) node in
    ∃ ext, r.2 = log ++ ext ∧ P s r.1 ∧ ∀ t, t ∈ ext → P t r.1.
Proof.
  intros Hrefl Htrans Hstep node s log. cbv zeta.
  pose (R := λ (a b : S * list S),
    ∃ ext, b.2 = a.2 ++ ext ∧ P a.1 b.1 ∧ ∀ t, t ∈ ext → P t b.1).
  apply (walk_preserves (logged fn) R).
  - intros a. exists []. split_and!; [by rewrite app_nil_r | done |].
    intros t Ht. by apply elem_of_nil in Ht.
  - intros a b c (e1 & H1 & H1s & H1e) (e2 & H2 & H2s & H2e).
    exists (e1 ++ e2). split_and!.
    + by rewrite H2, H1, (assoc_L (++)).
    + by apply (Htrans _ b.1).
    + intros t [Ht|Ht]%elem_of_app; [|by apply H2e].
      apply (Htrans _ b.1); [by apply H1e | done].
  - intros a nd. exists [(fn a.1 nd).1]. cbn [logged fst snd].
    split_and!; [done | apply Hstep |].
    by intros t ->%list_elem_of_singleton.
Qed.

(** With a callback that does nothing in the states of [stuck], the walk
    ends in the first such state that enters the log. *)
Lemma walk_log_stuck (stuck : S → Prop) :
  (∀ s node, stuck s → fn s node = (s, false)) →
  ∀ node s log,
    let r := walk (logged fn) (s, log) node in
    ∃ ext, r.2 = log ++ ext ∧ ∀ t, t ∈ ext → stuck t → r.1 = t.
Proof.
  intros Hstuck node s log. cbv zeta.
  destruct (walk_log_preorder (λ s1 s2, stuck s1 → s2 = s1)) with node s log
    as (ext & Hext & _ & Hlog).
  - done.
  - intros s1 s2 s3 H12 H23 H1. rewrite H23; rewrite H12; done.
  - intros s' nd Hs'. by rewrite (Hstuck _ _ Hs').
  - by exists ext.
Qed.

End Logged.

Section Sticky.
Context {GS : GoStrings}.

Lemma entityLoader_stuck (b : Binding) (node : Node) :
  err b ≠ None → entityLoader b node = (b, false).
Proof. intros Hb. unfold entityLoader. by rewrite bool_decide_eq_true_2. Qed.

(** The only way [entityLoader] changes the entity list is the append of
    [createEntityFromAst], which comes with no error. *)
Lemma entityLoader_entities (b : Binding) (node : Node) :
  let b' := (entityLoader b node).1 in
  Entities b' = Entities b
  ∨ err b' = None ∧ ∃ entity, Entities b' = Entities b ++ [entity].
Proof.
  cbv zeta. unfold entityLoader. case_bool_decide; [by left|].
  destruct node; try (by left).
  case_bool_decide; [by left|]. unfold createEntityFromAst.
  destruct (entityFromAst _ _) as [entity|e]; [|by left].
  right. rsimpl. eauto.
Qed.

(** C8: once the error field of the binding is set, every invocation of the
    tree-walk callback returns the binding as it is and halts the descent,
    and so does every walk; hence the first error that enters the binding
    during the discovery pass is the one [createFromAst] returns, with the
    binding, and so its entity list, as they were when the error was
    recorded; the invocation that records an error leaves the entity list as
    it was, and the entity list of every moment of the pass is a prefix of the
    final one. *)
Theorem sticky_error (binding : Binding) (f : file) :
  (∀ b node, err b ≠ None → entityLoader b node = (b, false)) ∧
  (∀ b node, err b ≠ None → walk entityLoader b node = b) ∧
  (∀ b nodes, err b ≠ None →
     foldl (λ b node, (entityLoader b node).1) b nodes = b) ∧
  (∀ i b e, discoveryTrace binding f !! i = Some b → err b = Some e →
     createFromAst binding f = (b, Some e)) ∧
  (∀ b node e, err b = None → err (entityLoader b node).1 = Some e →
     Entities (entityLoader b node).1 = Entities b) ∧
  (∀ i b, discoveryTrace binding f !! i = Some b →
     Entities b `prefix_of` Entities (createFromAst binding f).1).
Proof.
  split_and!.
  - apply entityLoader_stuck.
  - intros b node Hb.
    apply (walk_preserves entityLoader (λ b1 b2, err b1 ≠ None → b2 = b1));
      [done | | | done].
    + intros b1 b2 b3 H12 H23 H1. rewrite H23; rewrite H12; done.
    + intros b1 nd H1. by rewrite entityLoader_stuck.
  - intros b nodes Hb. induction nodes as [|node nodes IH]; [done|].
    cbn [foldl]. by rewrite entityLoader_stuck.
  - intros i b e Hi He. unfold createFromAst, discoveryTrace in *.
    destruct (walk_log_stuck entityLoader (λ b, err b ≠ None) entityLoader_stuck
                (fileRoot f) (withPackage binding (fileName f)) [])
      as (ext & Hext & Hfirst).
    rewrite walk_logged in Hfirst. rewrite Hext in Hi. cbn [app] in Hi.
    rewrite (Hfirst b); [by rewrite He | by eapply list_elem_of_lookup_2 |
                         by rewrite He].
  - intros b node e Hb He.
    destruct (entityLoader_entities b node) as [Heq|[Hnone _]]; [done|].
    by rewrite Hnone in He.
  - intros i b Hi. unfold createFromAst, discoveryTrace in *. cbn [fst].
    destruct (walk_log_preorder entityLoader
                (λ b1 b2, Entities b1 `prefix_of` Entities b2))
      with (fileRoot f) (withPackage binding (fileName f)) (@nil Binding)
      as (ext & Hext & _ & Hlog).
    + done.
    + intros b1 b2 b3. apply transitivity.
    + intros b1 nd.
      destruct (entityLoader_entities b1 nd) as [->|[_ [entity ->]]];
        [done | by apply prefix_app_r].
    + rewrite walk_logged in Hlog. rewrite Hext in Hi.
      apply Hlog. by eapply list_elem_of_lookup_2.
Qed.

End Sticky.

Lemma sticky_error_witness :
  let struct name t :=
    GenDecl [TypeSpec name
               [StructType [{| Names := ["Id"]; FType := t; Tag := None |}] []]] in
  let f := {| fileName := "model";
              fileRoot := File [struct "A" "uint64"; struct "B" "Text";
                                struct "C" "uint64"] |} in
  let e := ErrOnProperty (ErrUnknownType "Text") "Id" "B" in
  ∃ b, @discoveryTrace AsciiStrings newBinding f !! 9%nat = Some b ∧
       err b = Some e ∧ (EName <$> Entities b) = ["A"] ∧
       @createFromAst AsciiStrings newBinding f = (b, Some e).
Proof.
  intros struct f e. eexists. split; [vm_compute; reflexivity|].
  split; [reflexivity|]. split; [reflexivity|].
  refine (proj1 (proj2 (proj2 (proj2 (@sticky_error AsciiStrings newBinding f))))
            9%nat _ e _ _); reflexivity.
Defined.

(** * Further properties of the code *)

(** ** The table offset over the whole range of identifiers *)

(** X1: for every identifier of the [uint32] range, zero included,
    [FbvTableOffset] returns [4 + 2 * (id - 1)] reduced modulo [2^32] when
    that is at most 65535 and panics otherwise; what it returns is therefore
    always below [2^16], so the final conversion to [uint16] never truncates. *)
Theorem FbvTableOffset_exact (p : Property) :
  0 ≤ Id p < 2 ^ 32 →
  let wrapped := (4 + 2 * (Id p - 1)) mod 2 ^ 32 in
  FbvTableOffset p =
    (if decide (wrapped ≤ 65535) then Ok wrapped
     else Err (ErrVTableOffset (Name p) (Id p))) ∧
  (∀ r, FbvTableOffset p = Ok r → 0 ≤ r ≤ 65535 ∧ r mod 2 = 0).
Proof.
  intros Hid. cbv zeta.
  assert (FbvTableOffset p =
    (if decide ((4 + 2 * (Id p - 1)) mod 2 ^ 32 ≤ 65535)
     then Ok ((4 + 2 * (Id p - 1)) mod 2 ^ 32)
     else Err (ErrVTableOffset (Name p) (Id p)))) as Heq.
  { destruct (decide (Id p = 0)) as [H0|H0].
    - unfold FbvTableOffset, FbSlot. rewrite H0. reflexivity.
    - apply FbvTableOffset_unfold. lia. }
  split; [done|]. intros r. rewrite Heq.
  case_decide as Hle; [|done]. intros [= <-].
  pose proof (Z.mod_pos_bound (4 + 2 * (Id p - 1)) (2 ^ 32) ltac:(lia)).
  split; [lia|].
  rewrite Z.mod_mod_divide by (by exists (2 ^ 31)).
  replace (4 + 2 * (Id p - 1)) with (0 + (Id p + 1) * 2) by lia.
  by rewrite Z.mod_add.
Qed.

Lemma FbvTableOffset_exact_witness :
  0 ≤ Id (withId (newProperty "Entity" "F") 0) < 2 ^ 32 ∧
  FbvTableOffset (withId (newProperty "Entity" "F") 0) = Ok 2.
Proof.
  split; [cbn; lia|].
  refine (proj1 (FbvTableOffset_exact (withId (newProperty "Entity" "F") 0) _)).
  cbn; lia.
Defined.

(** X2: on the identifiers 1 to 32766, the ones whose offset fits 16 bits,
    the slot is [id - 1], the offset is [4 + 2 * slot], offsets start at 4
    and two properties with different identifiers never share an offset. *)
Theorem FbvTableOffset_injective (p q : Property) :
  1 ≤ Id p ≤ 32766 → 1 ≤ Id q ≤ 32766 →
  FbSlot p = Id p - 1 ∧
  FbvTableOffset p = Ok (4 + 2 * FbSlot p) ∧
  (FbvTableOffset p = FbvTableOffset q → Id p = Id q).
Proof.
  intros Hp Hq.
  destruct (FbvTableOffset_fits p) as [Hs Ho]; [lia..|].
  destruct (FbvTableOffset_fits q) as [_ Ho']; [lia..|].
  rewrite Hs. split_and!; [done..|]. rewrite Ho, Ho'. intros [=]. lia.
Qed.

Lemma FbvTableOffset_injective_witness :
  let p := withId (newProperty "Entity" "A") 7 in
  let q := withId (newProperty "Entity" "B") 32766 in
  FbvTableOffset p = Ok 16 ∧ FbvTableOffset q = Ok 65534.
Proof.
  split.
  - refine (proj1 (proj2 (FbvTableOffset_injective
                            (withId (newProperty "Entity" "A") 7)
                            (withId (newProperty "Entity" "B") 32766) _ _)));
      cbn; lia.
  - refine (proj1 (proj2 (FbvTableOffset_injective
                            (withId (newProperty "Entity" "B") 32766)
                            (withId (newProperty "Entity" "A") 7) _ _)));
      cbn; lia.
Defined.

(** ** The annotation parser on tags it rejects or finds empty *)

Section ParserEdges.
Context {GS : GoStrings}.

#[local] Arguments String.append !_ _ / : simpl nomatch.




Lemma Split_spaces n : GoStr.Split (spaces n) " " = replicate (S n) "".
Proof. induction n as [|n IH]; [done|]. cbn. by rewrite IH. Qed.

Lemma annotationLoop_empty_tokens m n :
  annotationLoop m (replicate n "") = Ok m.
Proof. induction n as [|n IH]; [done|]. apply IH. Qed.

(** X4: the empty tag, the empty literal and a tag of spaces only, between
    backquotes or not, are accepted and leave a property without annotations
    as it is. *)
Theorem setAnnotations_blank (p : Property) (n : nat) :
  Annotations p = ∅ →
  setAnnotations p (spaces n) = Ok p ∧
  setAnnotations p (rawTag (spaces n)) = Ok p ∧
  (∀ q key, setAnnotations p (rawTag (spaces n)) = Ok q →
            hasAnnotation q key = false).
Proof.
  intros Hp.
  assert (parseContent p (spaces n) = Ok p) as Hc.
  { unfold parseContent. destruct n as [|n]; [done|].
    rewrite bool_decide_eq_false_2 by done.
    rewrite Split_spaces, annotationLoop_empty_tokens. rsimpl.
    destruct p. cbn in Hp. by rewrite Hp. }
  assert (setAnnotations p (rawTag (spaces n)) = Ok p) as Hraw.
  { unfold rawTag. by rewrite setAnnotations_wrapped by (by left). }
  split_and!; [|done|].
  - rewrite setAnnotations_bare; [done|].
    intros c. destruct n; cbn; [done|]. by intros [= <-].
  - intros q key. rewrite Hraw. intros [= <-].
    apply hasAnnotation_false. by rewrite Hp.
Qed.

End ParserEdges.


Lemma setAnnotations_blank_witness :
  Annotations (newProperty "Entity" "F") = ∅ ∧
  @setAnnotations AsciiStrings (newProperty "Entity" "F") (rawTag (spaces 3)) =
    Ok (newProperty "Entity" "F").
Proof.
  split; [reflexivity|].
  refine (proj1 (proj2 (@setAnnotations_blank AsciiStrings
                          (newProperty "Entity" "F") 3 _))).
  reflexivity.
Defined.

Section ParserValues.
Context {GS : GoStrings}.

#[local] Arguments String.append !_ _ / : simpl nomatch.

Lemma string_last_split (s : string) (d : ascii) :
  s ≠ "" → String.get (String.length s - 1) s = Some d →
  ∃ v, s = v +:+ String d "".
Proof.
  induction s as [|a s IH]; [done|]. intros _.
  destruct s as [|b s].
  - cbn. intros [= ->]. by exists "".
  - replace (String.length (String a (String b s)) - 1)%nat
      with (S (String.length (String b s) - 1)) by (cbn; lia).
    cbn [String.get]. intros Hget.
    destruct (IH ltac:(done) Hget) as [v Hv]. exists (String a v). cbn.
    by rewrite <- Hv.
Qed.

(** The check of the text after the colon accepts exactly the quoted
    strings. *)
Lemma quoted_check (r : string) :
  (1 <? GoStr.len r)%nat
  && bool_decide (GoStr.at_ r 0 = GoStr.at_ r (GoStr.len r - 1))
  && bool_decide (GoStr.at_ r 0 = Some GoStr.dquote) = true
  ↔ ∃ v, r = quoted v.
Proof.
  split.
  - intros [[Hlen Hsame%bool_decide_eq_true]%andb_true_iff
             Hq%bool_decide_eq_true]%andb_true_iff.
    apply Nat.ltb_lt in Hlen. rewrite Hq in Hsame.
    destruct r as [|c r]; [done|]. cbn in Hq. injection Hq as ->.
    unfold GoStr.at_, GoStr.len in *. cbn [String.length] in *.
    destruct r as [|b r]; [cbn in Hlen; lia|].
    replace (S (String.length (String b r)) - 1)%nat
      with (S (String.length (String b r) - 1)) in Hsame by (cbn; lia).
    cbn [String.get] in Hsame.
    destruct (string_last_split (String b r) GoStr.dquote) as [v Hv]; [done..|].
    exists v. unfold quoted. by rewrite Hv.
  - intros [v ->]. unfold quoted.
    rewrite wrapped_len, wrapped_first, wrapped_last.
    by rewrite !bool_decide_eq_true_2.
Qed.

Lemma annotationLoop_app m l1 l2 :
  annotationLoop m (l1 ++ l2) = annotationLoop m l1 ≫= λ m', annotationLoop m' l2.
Proof.
  revert m. induction l1 as [|tag l1 IH]; intros m; [done|].
  cbn [app annotationLoop]. destruct (0 <? GoStr.len tag)%nat; [|apply IH].
  set (r := match GoStr.IndexRune tag ":" with Some _ => _ | None => _ end).
  destruct r as [nv|]; [|done]. rsimpl.
  destruct (m !! ToLower nv.1); [done|]. apply IH.
Qed.

(** A token [n:r] whose [r] is not a quoted string stops the loop. *)
Lemma annotationLoop_unquoted m n r rest :
  hasByte ":" n = false → (∀ v, r ≠ quoted v) →
  annotationLoop m ((n +:+ String ":" r) :: rest) =
    Err (ErrInvalidAnnotationValue r n).
Proof.
  intros Hn Hr. cbn [annotationLoop].
  assert ((0 <? GoStr.len (n +:+ String ":" r))%nat = true) as ->.
  { apply Nat.ltb_lt. rewrite len_app. unfold GoStr.len. cbn. lia. }
  rewrite IndexRune_first by done. rewrite slice_prefix, sliceFrom_after.
  destruct ((1 <? GoStr.len r)%nat && _ && _) eqn:Hcheck; [|done].
  apply quoted_check in Hcheck as [v ->]. by destruct (Hr v).
Qed.

Lemma joinSpace_nonempty (l1 l2 : list string) (x : string) :
  x ≠ "" → joinSpace (l1 ++ x :: l2) ≠ "".
Proof.
  intros Hx. induction l1 as [|y l1 IH]; cbn [app].
  - destruct l2; cbn; [done|]. by destruct x.
  - destruct (l1 ++ x :: l2) eqn:Hl; [by destruct l1|].
    cbn [joinSpace]. by destruct y.
Qed.

(** X5: in a tag, the first token with a colon whose text after the first
    colon is not a double-quoted string (no quotes, one quote only, a quote
    at one end only) is rejected with the format error, which carries that
    text and the name as written, not lower-cased; the well-formed tokens
    before it and whatever follows it make no difference. *)
Theorem setAnnotations_unquoted (p : Property) (tokens : list Token)
    (n r : string) (rest : list string) :
  Forall (λ t, tokenOk t = true) tokens → NoDup (tokenKeys tokens) →
  hasByte ":" n = false → hasByte " " n = false → hasByte " " r = false →
  (∀ v, r ≠ quoted v) →
  Forall (λ s, hasByte " " s = false) rest →
  setAnnotations p
    (rawTag (joinSpace ((renderToken <$> tokens) ++ (n +:+ String ":" r) :: rest))) =
    Err (ErrInvalidAnnotationValue r n).
Proof.
  intros Hok Hnd Hn Hns Hrs Hr Hrest. unfold rawTag.
  rewrite setAnnotations_wrapped by (by left). unfold parseContent.
  rewrite bool_decide_eq_false_2
    by (apply joinSpace_nonempty; by destruct n).
  rewrite Split_joinSpace.
  - rewrite annotationLoop_app, annotationLoop_tokens; [|done| |done].
    + rsimpl. by rewrite annotationLoop_unquoted.
    + erewrite list_fmap_ext; [exact Hnd|]. intros ? ? _. apply tokenEntry_key.
  - by destruct (renderToken <$> tokens).
  - apply Forall_app. split.
    + apply Forall_fmap. eapply Forall_impl; [done|].
      intros t'. apply renderToken_no_space.
    + constructor; [|done]. rewrite hasByte_app, Hns. cbn. by rewrite Hrs.
Qed.

End ParserValues.

Lemma setAnnotations_unquoted_witness :
  let p := newProperty "Entity" "F" in
  (∀ v, "hash" ≠ quoted v) ∧
  @setAnnotations AsciiStrings p
    (rawTag (joinSpace ((renderToken <$> [Bare "id"]) ++ ["Index:hash"; "unique"]))) =
    Err (ErrInvalidAnnotationValue "hash" "Index").
Proof.
  assert (∀ v, "hash" ≠ quoted v) as Hr by (intros v; discriminate).
  split; [done|].
  refine (@setAnnotations_unquoted AsciiStrings (newProperty "Entity" "F")
            [Bare "id"] "Index" "hash" ["unique"] _ _ _ _ _ Hr _).
  - repeat constructor.
  - apply NoDup_singleton.
  - reflexivity.
  - reflexivity.
  - reflexivity.
  - repeat constructor.
Defined.

(** ** Tags with runs of spaces *)

Section SpacedTags.
Context {GS : GoStrings}.

#[local] Arguments String.append !_ _ / : simpl nomatch.

(** The loop skips the empty pieces that [strings.Split] returns for leading,
    trailing and repeated spaces. *)
Lemma annotationLoop_skip (l : list string) (m : gmap string Annotation) :
  annotationLoop m l = annotationLoop m (filter (λ s, s ≠ "") l).
Proof.
  revert m. induction l as [|s l IH]; intros m; [done|].
  destruct s as [|c s].
  - rewrite filter_cons_False by (by intros H). apply IH.
  - rewrite filter_cons_True by done. cbn [annotationLoop].
    change (0 <? GoStr.len (String c s))%nat with true. cbv iota.
    destruct (match GoStr.IndexRune (String c s) ":" with
              | Some i => _ | None => _ end) as [nv|e]; [|done].
    rsimpl. destruct (m !! ToLower nv.1); [done|]. apply IH.
Qed.

Lemma filter_replicate_empty (n : nat) :
  filter (λ s : string, s ≠ "") (replicate n "") = [].
Proof.
  induction n as [|n IH]; [done|]. cbn [replicate].
  by rewrite filter_cons_False by (by intros H).
Qed.

Lemma renderToken_nonempty (t : Token) : tokenOk t = true → renderToken t ≠ "".
Proof. intros (c & s & -> & _)%renderToken_head. done. Qed.

Lemma filter_spacedPieces (lead : nat) (ts : list (Token * nat)) :
  Forall (λ t, tokenOk t = true) ts.*1 →
  filter (λ s, s ≠ "") (spacedPieces lead ts) = renderToken <$> ts.*1.
Proof.
  intros Hok. unfold spacedPieces.
  rewrite filter_app, filter_replicate_empty, app_nil_l.
  induction ts as [|[t n] ts IH]; [done|].
  rewrite fmap_cons in Hok. apply Forall_cons in Hok as [Ht Hok].
  cbn [tokenPieces]. rewrite filter_cons_True
    by (by apply renderToken_nonempty).
  rewrite filter_app, filter_replicate_empty, app_nil_l, IH by done.
  by rewrite !fmap_cons.
Qed.

(** The pieces hold no space, and none starts with a backquote or a double
    quote. *)
Lemma spacedPieces_ok (lead : nat) (ts : list (Token * nat)) :
  Forall (λ t, tokenOk t = true) ts.*1 →
  Forall (λ s, hasByte " " s = false ∧
               ∀ c, GoStr.at_ s 0 = Some c → c ≠ "`"%char ∧ c ≠ GoStr.dquote)
         (spacedPieces lead ts).
Proof.
  intros Hok. unfold spacedPieces. apply Forall_app. split.
  - apply Forall_replicate. by split.
  - induction ts as [|[t n] ts IH]; [constructor|].
    rewrite fmap_cons in Hok. apply Forall_cons in Hok as [Ht Hok].
    cbn [tokenPieces]. constructor; [|apply Forall_app; split].
    + split; [by apply renderToken_no_space|].
      destruct (renderToken_head t Ht) as (c' & s & -> & Hc).
      by intros c [= <-].
    + apply Forall_replicate. by split.
    + by apply IH.
Qed.

Lemma joinSpace_head (l : list string) :
  Forall (λ s, ∀ c, GoStr.at_ s 0 = Some c → c ≠ "`"%char ∧ c ≠ GoStr.dquote) l →
  ∀ c, GoStr.at_ (joinSpace l) 0 = Some c → c ≠ "`"%char ∧ c ≠ GoStr.dquote.
Proof.
  destruct l as [|x [|y l]]; intros Hl c.
  - done.
  - apply Forall_cons in Hl as [Hx _]. apply Hx.
  - apply Forall_cons in Hl as [Hx _]. cbn [joinSpace].
    destruct x as [|c' x]; cbn.
    + by intros [= <-].
    + apply Hx.
Qed.

Lemma spacedTag_empty (lead : nat) (ts : list (Token * nat)) :
  Forall (λ t, tokenOk t = true) ts.*1 → spacedTag lead ts = "" → ts = [].
Proof.
  intros Hok. destruct ts as [|[t n] ts]; [done|].
  rewrite fmap_cons in Hok. apply Forall_cons in Hok as [Ht _].
  unfold spacedTag, spacedPieces. cbn [tokenPieces].
  intros Hnil.
  by apply joinSpace_nonempty in Hnil; [|apply renderToken_nonempty].
Qed.

(** Single spaces, no leading and no trailing space: the tag of [tagOf]. *)
Lemma spacedTag_tagOf (tokens : list Token) :
  spacedTag 0 ((λ t, (t, 0%nat)) <$> tokens) = tagOf tokens.
Proof.
  unfold spacedTag, spacedPieces, tagOf. cbn [replicate app]. f_equal.
  induction tokens as [|t tokens IH]; [done|].
  rewrite !fmap_cons. cbn [tokenPieces replicate app]. by rewrite IH.
Qed.

Lemma parseContent_spaced (p : Property) (lead : nat) (ts : list (Token * nat)) :
  Forall (λ t, tokenOk t = true) ts.*1 →
  NoDup ((λ t, (tokenEntry t).1) <$> ts.*1) →
  parseContent p (spacedTag lead ts) =
    Ok (if bool_decide (spacedTag lead ts = "") then p
        else withAnnotations p (list_to_map (tokenEntry <$> ts.*1))).
Proof.
  intros Hok Hnd. unfold parseContent. case_bool_decide as Hne; [done|].
  unfold spacedTag in *. rewrite Split_joinSpace.
  - rewrite annotationLoop_skip, filter_spacedPieces, annotationLoop_tokens
      by done.
    rsimpl. by rewrite (right_id_L ∅ (∪)).
  - by intros Hnil; rewrite Hnil in Hne.
  - eapply Forall_impl; [by apply spacedPieces_ok|]. by intros s [? _].
Qed.

(** C6: a tag made of well-formed tokens [name] and [name:"value"] (names
    free of space, colon, double quote and backquote, bare names not empty,
    values free of the space byte), separated by one or more spaces, with any
    number of leading and trailing spaces, whose lower-cased names are
    pairwise distinct, is parsed successfully, as it stands or between the
    backquotes of the raw literal.  The mapping has one entry per token,
    under the lower-cased name, holding the value between the quotes with
    surrounding white space trimmed, the empty value for a bare name. *)
Theorem setAnnotations_tokens (p : Property) (lead : nat)
    (ts : list (Token * nat)) :
  Forall (λ t, tokenOk t = true) ts.*1 →
  NoDup ((λ t, ToLower (tokenName t)) <$> ts.*1) →
  let tag := spacedTag lead ts in
  let m : gmap string Annotation := list_to_map (tokenEntry <$> ts.*1) in
  let q := if bool_decide (tag = "") then p else withAnnotations p m in
  setAnnotations p tag = Ok q ∧
  setAnnotations p (rawTag tag) = Ok q ∧
  (Annotations p = ∅ → Annotations q = m) ∧
  size m = length ts ∧
  (∀ t, t ∈ ts.*1 → m !! ToLower (tokenName t) = Some (tokenEntry t).2).
Proof.
  intros Hok Hnd tag m q.
  assert (NoDup ((λ t, (tokenEntry t).1) <$> ts.*1)) as Hnd'.
  { erewrite list_fmap_ext; [exact Hnd|]. intros ? ? _. apply tokenEntry_key. }
  assert (NoDup (tokenEntry <$> ts.*1).*1) as Hnd''
    by (by rewrite <- list_fmap_compose).
  split_and!.
  - rewrite setAnnotations_bare; [by apply parseContent_spaced|].
    apply joinSpace_head.
    eapply Forall_impl; [by apply spacedPieces_ok|]. by intros s [_ ?].
  - unfold rawTag. rewrite setAnnotations_wrapped by (by left).
    by apply parseContent_spaced.
  - subst q. case_bool_decide as Htag; [|done].
    intros ->. subst m. by rewrite (spacedTag_empty lead ts Hok Htag).
  - subst m. rewrite map_size_list_to_map by done. by rewrite !length_fmap.
  - intros t Ht. rewrite <- tokenEntry_key. subst m.
    apply elem_of_list_to_map_1; [done|].
    apply list_elem_of_fmap. exists t. by destruct (tokenEntry t).
Qed.

End SpacedTags.

Lemma setAnnotations_tokens_witness :
  let ts := [(Bare "id", 1%nat); (Valued "nameInDb" "uid", 0%nat);
             (Valued "Index" "hash", 2%nat)] in
  let p := newProperty "Entity" "Id" in
  Forall (λ t, tokenOk t = true) ts.*1 ∧
  NoDup ((λ t, @ToLower AsciiStrings (tokenName t)) <$> ts.*1) ∧
  spacedTag 1 ts =
    " id  nameInDb:" +:+ quoted "uid" +:+ " Index:" +:+ quoted "hash" +:+ "  " ∧
  ∃ q, @setAnnotations AsciiStrings p (rawTag (spacedTag 1 ts)) = Ok q ∧
       size (Annotations q) = 3%nat ∧
       Annotations q !! "id" = Some {| Value := "" |} ∧
       Annotations q !! "nameindb" = Some {| Value := "uid" |} ∧
       Annotations q !! "index" = Some {| Value := "hash" |}.
Proof.
  intros ts p.
  assert (Forall (λ t, tokenOk t = true) ts.*1) as Hok by (repeat constructor).
  assert (NoDup ((λ t, @ToLower AsciiStrings (tokenName t)) <$> ts.*1)) as Hnd
    by (vm_compute; by apply (bool_decide_unpack (NoDup _))).
  split_and!; [done | done | reflexivity |].
  eexists. split.
  - apply (@setAnnotations_tokens AsciiStrings p 1%nat ts Hok Hnd).
  - split_and!; reflexivity.
Defined.

(** C6 (as stated) fails: the tag is cut at every space before the quotes are
    looked at, so a quoted value that holds a space, inside or next to the
    quotes, is split over two pieces and the first is rejected with the format
    error, although the tag is made of tokens [name] and [name:"value"] with
    distinct names. *)
Lemma setAnnotations_tokens_counterexample :
  let p := newProperty "Entity" "Name" in
  @setAnnotations AsciiStrings p
    (rawTag (tagOf [Valued "nameindb" "my name"])) =
    Err (ErrInvalidAnnotationValue (String GoStr.dquote "my") "nameindb") ∧
  @setAnnotations AsciiStrings p
    (rawTag (tagOf [Bare "id"; Valued "nameindb" " uid "])) =
    Err (ErrInvalidAnnotationValue (String GoStr.dquote "") "nameindb") ∧
  NoDup ((λ t, @ToLower AsciiStrings (tokenName t)) <$>
           [Bare "id"; Valued "nameindb" " uid "]) ∧
  tokenOk (Valued "nameindb" "my name") = false.
Proof.
  split_and!; [reflexivity | reflexivity | | reflexivity].
  vm_compute. by apply (bool_decide_unpack (NoDup _)).
Qed.

(** ** The type table and the refinements *)

Section TypeTable.

Lemma baseType_supported t : is_Some (baseType t) ↔ t ∈ supportedTypes.
Proof.
  unfold baseType, supportedTypes. rewrite !elem_of_cons, elem_of_nil.
  repeat (case_bool_decide; cbn [orb];
          [split; [intros _; tauto | intros _; eauto] |]).
  split; [by intros [? ?] | tauto].
Qed.

(** X6: type texts are matched exactly against the seventeen texts of the
    table: on any other text, whatever the annotations, [setType] fails with
    the unknown-type error carrying the text, and whenever [setType]
    succeeds the text is one of the table. *)
Theorem setType_supported (p : Property) (t : string) :
  (t ∉ supportedTypes → setType p t = Err (ErrUnknownType t)) ∧
  (∀ q, setType p t = Ok q → t ∈ supportedTypes).
Proof.
  split.
  - intros Ht. unfold setType. rsimpl.
    destruct (baseType t) as [[ob fb]|] eqn:Hb; [|done].
    destruct Ht. apply baseType_supported. eauto.
  - intros q Hq. apply baseType_supported.
    by apply setType_preserves in Hq as (_ & _ & _ & _ & _ & ?).
Qed.

(** What a successful [setType] does to each field of the property. *)
Lemma setType_effect (p q : Property) (t : string) :
  setType p t = Ok q → PRelation p = None →
  ∃ ob fb, baseType t = Some (ob, fb) ∧
    GoType q = t ∧ FbType q = fb ∧
    (is_Some (PRelation q) ↔ hasAnnotation p "link" = true) ∧
    ¬ (hasAnnotation p "date" = true ∧ hasAnnotation p "link" = true) ∧
    ObType q = (if hasAnnotation p "date" then "Date"
                else if hasAnnotation p "link" then "Relation" else ob) ∧
    (hasAnnotation p "date" = true ∨ hasAnnotation p "link" = true →
       ob = "Long" ∧ (fb = "Int64" ∨ fb = "Uint64")).
Proof.
  unfold setType, hasAnnotation. rsimpl. intros Hq Hrel.
  destruct (baseType t) as [[ob fb]|] eqn:Hb; [|done]. rsimpl.
  exists ob, fb. split; [done|].
  assert (ob = "Long" → fb = "Int64" ∨ fb = "Uint64") as Hlong.
  { intros ->. revert Hb. unfold baseType.
    repeat case_match; intros [=]; subst; eauto. }
  revert Hq.
  destruct (Annotations p !! "date") as [d|] eqn:Hdate;
    destruct (Annotations p !! "link") as [l|] eqn:Hlink;
    rewrite ?(bool_decide_eq_true_2 (is_Some (Some _))) by eauto;
    rewrite ?(bool_decide_eq_false_2 (is_Some None)) by (by intros [? ?]);
    rsimpl.
  - case_bool_decide; rsimpl; [|done]. rewrite Hlink. rsimpl.
    by rewrite bool_decide_eq_false_2 by done.
  - case_bool_decide as Hob; rsimpl; [|done]. rewrite Hlink. rsimpl.
    intros [= <-]. rsimpl. rewrite Hrel.
    split_and!;
      first [done | by split; [intros [? ?]|] | by split; eauto
            | by intros [? ?] | by intros [?|?] | eauto].
  - rewrite Hlink. rsimpl. case_bool_decide as Hob; rsimpl; [|done].
    intros [= <-]. rsimpl.
    split_and!;
      first [done | by split; [intros [? ?]|] | by split; eauto
            | by intros [? ?] | by intros [?|?] | eauto].
  - rewrite Hlink. rsimpl. intros [= <-]. rsimpl. rewrite Hrel.
    split_and!;
      first [done | by split; [intros [? ?]|] | by split; eauto
            | by intros [? ?] | by intros [?|?] | eauto].
Qed.

(** X7: on success [setType] records the type text, takes the physical type
    from the table alone (annotations never change it), and attaches a
    Relation exactly when the [link] annotation is present; [date] and [link]
    are never both present, a [date] field has logical type [Date] and a
    [link] field logical type [Relation], both on a 64-bit integer physical
    type; without them the logical type is the one of the table. *)
Theorem setType_result (p q : Property) (t : string) :
  setType p t = Ok q → PRelation p = None →
  ∃ ob fb, baseType t = Some (ob, fb) ∧
    GoType q = t ∧ FbType q = fb ∧
    (is_Some (PRelation q) ↔ hasAnnotation p "link" = true) ∧
    ¬ (hasAnnotation p "date" = true ∧ hasAnnotation p "link" = true) ∧
    ObType q = (if hasAnnotation p "date" then "Date"
                else if hasAnnotation p "link" then "Relation" else ob) ∧
    (hasAnnotation p "date" = true ∨ hasAnnotation p "link" = true →
       ob = "Long" ∧ (fb = "Int64" ∨ fb = "Uint64")).
Proof. apply setType_effect. Qed.

End TypeTable.

Lemma setType_supported_witness :
  ("time.Time" ∉ supportedTypes) ∧
  setType (newProperty "Entity" "Created") "time.Time"
    = Err (ErrUnknownType "time.Time").
Proof.
  assert ("time.Time" ∉ supportedTypes) as Hnot.
  { unfold supportedTypes. rewrite !elem_of_cons, elem_of_nil.
    intros H. by destruct_or!. }
  split; [exact Hnot|].
  exact (proj1 (setType_supported (newProperty "Entity" "Created") "time.Time")
           Hnot).
Defined.

Lemma setType_result_witness :
  let p := annotated "Owner" {[ "link" := {| Value := "User" |} ]} in
  ∃ q, setType p "uint64" = Ok q ∧ PRelation p = None ∧
       ObType q = "Relation" ∧ FbType q = "Uint64" ∧
       PRelation q = Some {| Target := "User" |}.
Proof.
  eassert (setType (annotated "Owner" {[ "link" := {| Value := "User" |} ]})
             "uint64" = Ok _) as Hq by (vm_compute; reflexivity).
  eexists. split; [exact Hq|]. split; [reflexivity|].
  destruct (setType_result _ _ _ Hq) as (ob & fb & _ & _ & _ & _ & _ & _ & _);
    [reflexivity|].
  split_and!; reflexivity.
Defined.

(** ** The flags of a property *)

Section Flags.
Context {GS : GoStrings}.

(** What a successful [setObFlags] does to each field of the property. *)
Lemma setObFlags_effect (p q : Property) :
  setObFlags p = Ok q →
  ObFlags q = ObFlags p ++ derivedFlags p ∧
  ObType q = ObType p ∧ FbType q = FbType p ∧ PRelation q = PRelation p ∧
  (PIndex p = None →
     (is_Some (PIndex q) ↔ indexConditions p = 1%nat) ∧
     (PIndex q = None ↔ indexConditions p = 0%nat)).
Proof.
  unfold setObFlags, derivedFlags, indexConditions, indexSubFlags, setIndex,
    hasAnnotation.
  destruct (bool_decide (is_Some (Annotations p !! "id"))); rsimpl;
    (destruct (Annotations p !! "index") as [ix|] eqn:Hix; rsimpl;
     [rewrite (bool_decide_eq_true_2 (is_Some (Some ix))) by eauto
     |rewrite (bool_decide_eq_false_2 (is_Some None)) by (by intros [? ?])]);
    repeat (case_match; rsimpl; try done);
    intros [= <-]; rsimpl;
    repeat match goal with
      | H : bool_decide _ = true |- _ => apply bool_decide_eq_true in H
      | H : bool_decide _ = false |- _ => apply bool_decide_eq_false in H
      end;
    try congruence;
    (split_and!; [by rewrite ?app_nil_r, <- ?(assoc_L (++)) | done..|]);
    intros Hnone; rewrite ?Hnone;
    rewrite ?bool_decide_eq_true_2 by eauto;
    rewrite ?bool_decide_eq_false_2 by (by intros [? ?]);
    cbn; split; split; intros; first [done | lia | eauto | by destruct_and?].
Qed.

(** X8: on success [setObFlags] only appends to the flags, in the fixed order
    [ID] (with the [id] annotation), [INDEXED] and the flag of the index type
    (with the [index] annotation), [UNIQUE] (with the [unique] annotation);
    it leaves the types and the Relation alone; and on a property without
    Index it allocates one exactly when one of [index], [unique], Relation
    is present. *)
Theorem setObFlags_result (p q : Property) :
  setObFlags p = Ok q →
  ObFlags q = ObFlags p ++ derivedFlags p ∧
  ObType q = ObType p ∧ FbType q = FbType p ∧ PRelation q = PRelation p ∧
  (PIndex p = None →
     (is_Some (PIndex q) ↔ indexConditions p = 1%nat) ∧
     (PIndex q = None ↔ indexConditions p = 0%nat)).
Proof. apply setObFlags_effect. Qed.

End Flags.

Lemma setObFlags_result_witness :
  let p := annotated "Code" {[ "id" := {| Value := "" |};
                               "index" := {| Value := "Hash" |} ]} in
  ∃ q, @setObFlags AsciiStrings p = Ok q ∧
       ObFlags q = ["ID"; "INDEXED"; "INDEX_HASH"] ∧ is_Some (PIndex q).
Proof.
  eassert (@setObFlags AsciiStrings
             (annotated "Code" {[ "id" := {| Value := "" |};
                                  "index" := {| Value := "Hash" |} ]}) = Ok _)
    as Hq by (vm_compute; reflexivity).
  eexists. split; [exact Hq|].
  destruct (@setObFlags_result AsciiStrings _ _ Hq) as (Hfl & _ & _ & _ & Hix).
  split; [exact Hfl|]. apply Hix; reflexivity.
Defined.

(** ** Entities that are built *)

Section Built.
Context {GS : GoStrings}.

(** A property of the states of the field loop that the initial state has
    and every successful iteration keeps holds when the loop ends. *)
Lemma fieldLoop_invariant (I : list Field → Entity * gset string → Prop)
    name fields st :
  I [] (initialState name) →
  (∀ fs st f st', I fs st → fieldStep st f = Ok st' → I (fs ++ [f]) st') →
  fieldLoop (initialState name) fields = Ok st → I fields st.
Proof.
  intros Hinit Hstep.
  assert (∀ l fs st0, I fs st0 → fieldLoop st0 l = Ok st → I (fs ++ l) st) as H.
  { induction l as [|f l IH]; intros fs st0 HI.
    - intros [= <-]. by rewrite app_nil_r.
    - cbn [fieldLoop]. destruct (fieldStep st0 f) as [st1|] eqn:Hs; [|done].
      rsimpl. intros Hl. rewrite (cons_middle f), (assoc_L (++)).
      eapply IH; [|done]. by eapply Hstep. }
  apply (H fields [] _ Hinit).
Qed.

(** The two ways [createEntityFromAst] succeeds: with the identity set by an
    [id] annotation, or adopted by name. *)
Lemma entityFromAst_Ok name node e :
  entityFromAst name node = Ok e →
  ∃ fields children st,
    node = StructType fields children ∧
    fieldLoop (initialState name) fields = Ok st ∧ Properties st.1 ≠ [] ∧
    (is_Some (IdProperty st.1) ∧ e = st.1
     ∨ IdProperty st.1 = None ∧
       ∃ i c, Properties st.1 !! i = Some c ∧ isIdByName c = true ∧
              e = adoptId st.1 i).
Proof.
  unfold entityFromAst.
  destruct node as [|c|c|n c|fields children|c];
    try (rsimpl; cbn; discriminate).
  change (newEntity name, ∅) with (initialState name).
  destruct (fieldLoop (initialState name) fields) as [st|] eqn:Hst; [|done].
  rsimpl. destruct (length (Properties st.1) =? 0)%nat eqn:Hlen; [done|].
  assert (Properties st.1 ≠ []) as Hne by (by intros Hnil; rewrite Hnil in Hlen).
  intros He. exists fields, children, st. split_and!; [done..|].
  destruct (IdProperty st.1) as [i|] eqn:Hid.
  - left. split; [eauto | by injection He].
  - right. split; [done|].
    pose proof (idByNameLoop_unset st.1 0 (Properties st.1) Hid) as Hby.
    destruct (filter _ (Properties st.1)) as [|c [|c' cs]] eqn:Hf.
    + rewrite Hby in He. rsimpl. by rewrite Hid in He.
    + destruct Hby as (k & Hk & Hby). rewrite Hby in He. rsimpl.
      injection He as <-. exists k, c. split_and!; [done| |done].
      assert (c ∈ filter (λ p, isIdByName p = true) (Properties st.1)) as Hc
        by (rewrite Hf; by left).
      by apply list_elem_of_filter in Hc as [? _].
    + by rewrite Hby in He.
Qed.

Lemma createEntityFromAst_Ok b node b' :
  createEntityFromAst b node = (b', None) →
  ∃ e, entityFromAst (currentEntityName b) node = Ok e ∧
       b' = withEntities b (Entities b ++ [e]).
Proof.
  unfold createEntityFromAst.
  destruct (entityFromAst _ node) as [e|]; [|done]. intros [= <-]. eauto.
Qed.

(** X9: a struct without fields, or whose fields all bind one name and are
    [transient], has no property left and is rejected with the
    no-properties error, the binding staying as it is. *)
Theorem createEntityFromAst_no_properties (b : Binding) (fields : list Field)
    (children : list Node) :
  Forall transientField fields →
  createEntityFromAst b (StructType fields children) =
    (b, Some (ErrNoProperties (currentEntityName b))).
Proof.
  intros Hall.
  assert (∀ st, fieldLoop st fields = Ok st) as Hloop.
  { induction Hall as [|f fields (n & m & Hn & Hm & Ht) _ IH]; intros st; [done|].
    cbn [fieldLoop].
    rewrite fieldStep_halves, resolveField_unfold, Hn, Hm.
    rewrite bool_decide_eq_true_2 by done. rsimpl. apply IH. }
  unfold createEntityFromAst, entityFromAst. by rewrite Hloop.
Qed.

(** X10: a field that does not bind exactly one name (an embedded field, a
    group [a, b T]) fails the build, whatever its tag and type; the error
    carries the number of names whenever the loop reaches the field. *)
Theorem createEntityFromAst_invalid_names (b : Binding) (pre post : list Field)
    (f : Field) (children : list Node) :
  length (Names f) ≠ 1%nat →
  let node := StructType (pre ++ f :: post) children in
  (∃ e, createEntityFromAst b node = (b, Some e)) ∧
  (∀ st, fieldLoop (initialState (currentEntityName b)) pre = Ok st →
     createEntityFromAst b node =
       (b, Some (ErrInvalidNames (currentEntityName b) (length (Names f))))).
Proof.
  intros Hn node.
  assert (∀ st, fieldStep st f =
                Err (ErrInvalidNames (EName st.1) (length (Names f)))) as Hstep.
  { intros [entity names]. unfold fieldStep.
    by rewrite (proj2 (Nat.eqb_neq _ _) Hn). }
  split.
  - apply createEntityFromAst_loop_isErr, fieldLoop_failing_field.
    intros st. by rewrite Hstep.
  - intros st Hst. apply createEntityFromAst_loop_error.
    apply (fieldLoop_error_at _ _ _ _ st); [done|]. rewrite Hstep.
    by rewrite (inv_name _ _ _ (fieldLoop_inv _ _ _ Hst)).
Qed.

Lemma setType_flags p t q :
  setType p t = Ok q → ObFlags q = ObFlags p ∧ PIndex q = PIndex p.
Proof.
  unfold setType, hasAnnotation. rsimpl.
  repeat (case_match; rsimpl; try done); by intros [= <-].
Qed.

(** A kept field, step by step. *)
Lemma resolveField_steps entity f q :
  resolveField entity f = Ok (Some q) →
  ∃ n m p1, Names f = [n] ∧ fieldAnnotations f = Ok m ∧
    m !! "transient" = None ∧
    setType (withAnnotations (newProperty entity n) m) (FType f) = Ok p1 ∧
    setObFlags p1 = Ok q.
Proof.
  rewrite resolveField_unfold.
  destruct (Names f) as [|n [|n' ns]]; [done| |done].
  destruct (fieldAnnotations f) as [m|]; [|done].
  case_bool_decide as Ht; [done|]. apply eq_None_not_Some in Ht. cbv zeta.
  destruct (setType _ (FType f)) as [p1|] eqn:H1; [|done]. rsimpl.
  destruct (setObFlags p1) as [p2|] eqn:H2; [|done]. rsimpl.
  intros [= <-]. eauto 10.
Qed.

Lemma ID_in_derivedFlags p :
  "ID" ∈ derivedFlags p ↔ hasAnnotation p "id" = true.
Proof.
  unfold derivedFlags, indexSubFlags.
  destruct (hasAnnotation p "id"), (hasAnnotation p "unique"),
    (Annotations p !! "index") as [ix|];
    repeat case_bool_decide;
    cbn [app]; rewrite ?elem_of_cons, ?elem_of_nil;
    (split; [intros; destruct_or?; by simplify_eq | intros; by eauto]).
Qed.

(** The flags of a kept property are the derived ones. *)
Lemma resolveField_ObFlags entity f q :
  resolveField entity f = Ok (Some q) → ObFlags q = derivedFlags q.
Proof.
  intros (n & m & p1 & _ & _ & _ & H1 & H2)%resolveField_steps.
  pose proof (setType_flags _ _ _ H1) as [Hf _].
  pose proof (setObFlags_effect _ _ H2) as (Hfl & _).
  apply setObFlags_preserves in H2 as (_ & _ & _ & Ha & _).
  rewrite Hfl, Hf. cbn [ObFlags withAnnotations newProperty app].
  unfold derivedFlags, hasAnnotation. by rewrite Ha.
Qed.

(** In the states of the loop, the [ID] flag is on the properties with the
    [id] annotation and on no other. *)
Lemma fieldLoop_ID_flag name fields st p :
  fieldLoop (initialState name) fields = Ok st → p ∈ Properties st.1 →
  "ID" ∈ ObFlags p ↔ hasAnnotation p "id" = true.
Proof.
  intros Hinv%fieldLoop_inv Hp.
  destruct (inv_from _ _ _ Hinv p Hp) as (f & q & _ & Hq & Hpq).
  apply resolveField_ObFlags in Hq.
  rewrite Hpq. cbn [ObFlags withObName]. rewrite Hq.
  exact (ID_in_derivedFlags q).
Qed.

(** The identity of an entity that is built. *)
Lemma entityFromAst_identity name node e :
  entityFromAst name node = Ok e →
  EName e = name ∧
  ∃ i idp, IdProperty e = Some i ∧ Properties e !! i = Some idp ∧
           ∀ j p, Properties e !! j = Some p → "ID" ∈ ObFlags p ↔ j = i.
Proof.
  intros (fields & children & st & -> & Hst & Hne & Hcase)%entityFromAst_Ok.
  pose proof (fieldLoop_inv _ _ _ Hst) as Hinv.
  destruct Hcase as [[[i Hi] ->]|(Hnone & i & c & Hc & _ & ->)].
  - destruct (inv_id_is _ _ _ Hinv i Hi) as (idp & Hidp & Hid).
    split; [apply Hinv|]. exists i, idp. split_and!; [done..|].
    intros j p Hj.
    rewrite (fieldLoop_ID_flag _ _ _ p Hst) by (by eapply list_elem_of_lookup_2).
    split.
    + intros Hp. pose proof (inv_id_at _ _ _ Hinv j p Hj Hp). congruence.
    + intros ->. congruence.
  - split; [apply Hinv|]. exists i, (addObFlag c "ID"). split_and!; [done| |].
    + cbn [adoptId Properties withProperties withIdProperty].
      by rewrite list_lookup_alter_eq, Hc.
    + intros j p. cbn [adoptId Properties withProperties withIdProperty].
      destruct (decide (j = i)) as [->|Hji].
      * rewrite list_lookup_alter_eq, Hc. intros [= <-]. split; [done|].
        intros _. cbn. apply elem_of_app. right. by left.
      * rewrite list_lookup_alter_ne by done. intros Hj.
        rewrite (fieldLoop_ID_flag _ _ _ p Hst)
          by (by eapply list_elem_of_lookup_2).
        split; [|done]. intros Hp.
        pose proof (inv_id_at _ _ _ Hinv j p Hj Hp). congruence.
Qed.

(** X11: when [createEntityFromAst] succeeds, the entity it appends bears the
    current name, has an identity property, which is one of its properties,
    and the [ID] flag is on that property and on no other; the earlier
    entities of the binding stay in place. *)
Theorem createEntityFromAst_identity (b b' : Binding) (node : Node) :
  createEntityFromAst b node = (b', None) →
  ∃ e i idp,
    b' = withEntities b (Entities b ++ [e]) ∧
    EName e = currentEntityName b ∧
    IdProperty e = Some i ∧ Properties e !! i = Some idp ∧
    (∀ j p, Properties e !! j = Some p → "ID" ∈ ObFlags p ↔ j = i).
Proof.
  intros (e & He & ->)%createEntityFromAst_Ok.
  apply entityFromAst_identity in He as (Hname & i & idp & Hi & Hidp & Hflag).
  by exists e, i, idp.
Qed.

Lemma fmap_alter_same {A B} (f : A → B) (g : A → A) (i : nat) (l : list A) :
  (∀ x, f (g x) = f x) → f <$> alter g i l = f <$> l.
Proof.
  intros Hfg. revert i. induction l as [|x l IH]; intros [|i]; cbn; [done..| |].
  - by rewrite Hfg.
  - f_equal. apply IH.
Qed.

(** The storage names of an entity that is built. *)
Lemma entityFromAst_storage_names name node e :
  entityFromAst name node = Ok e →
  NoDup ((λ p, ToLower (ObName p)) <$> Properties e) ∧
  ∀ p, p ∈ Properties e → propertyStorageName p = Some (ObName p).
Proof.
  intros He.
  apply entityFromAst_Ok in He
    as (fields & children & st & -> & Hst & Hne & Hcase).
  assert (NoDup ((λ p, ToLower (ObName p)) <$> Properties st.1) ∧
          (∀ p, p ∈ Properties st.1 → ToLower (ObName p) ∈ st.2) ∧
          (∀ p, p ∈ Properties st.1 → propertyStorageName p = Some (ObName p)))
    as (Hnd & _ & Hsn).
  { revert Hst. apply (fieldLoop_invariant (λ _ st,
      NoDup ((λ p, ToLower (ObName p)) <$> Properties st.1) ∧
      (∀ p, p ∈ Properties st.1 → ToLower (ObName p) ∈ st.2) ∧
      (∀ p, p ∈ Properties st.1 → propertyStorageName p = Some (ObName p)))).
    - split_and!; [constructor | |]; intros p Hp; by apply elem_of_nil in Hp.
    - intros _ st0 f st1 (Hnd0 & Hin0 & Hsn0). rewrite fieldStep_halves.
      destruct (resolveField _ f) as [[q|]|]; [| by intros [= <-] | done].
      destruct st0 as [e0 names0], st1 as [e1 names1]. cbn [fst snd] in *.
      intros (n & Hn & Hfresh & -> & _ & Hprops & _)%acceptProperty_Ok.
      rewrite Hprops. split_and!.
      + rewrite fmap_app. apply NoDup_app. split_and!; [done| |apply NoDup_singleton].
        intros x (p' & Hx & Hp')%list_elem_of_fmap Hx'%list_elem_of_singleton.
        apply Hfresh. cbn in Hx'. rewrite <- Hx', Hx. by apply Hin0.
      + intros p' [Hp'| ->%list_elem_of_singleton]%elem_of_app.
        * apply elem_of_union_r. by apply Hin0.
        * apply elem_of_union_l. by apply elem_of_singleton.
      + intros p' [Hp'| ->%list_elem_of_singleton]%elem_of_app; [by apply Hsn0|].
        done. }
  destruct Hcase as [[_ ->]|(_ & i & c & Hc & _ & ->)]; [done|].
  cbn [adoptId Properties withProperties withIdProperty]. split.
  - by rewrite fmap_alter_same.
  - intros p (j & Hj)%list_elem_of_lookup_1.
    destruct (decide (j = i)) as [->|Hji].
    + rewrite list_lookup_alter_eq, Hc in Hj. injection Hj as <-.
      apply (Hsn c). by eapply list_elem_of_lookup_2.
    + rewrite list_lookup_alter_ne in Hj by done.
      apply Hsn. by eapply list_elem_of_lookup_2.
Qed.

(** X12: in an entity that is built, the storage name of every property is
    the value of its [nameindb] annotation when it has one, which is then not
    empty, and its declared name otherwise; and no two properties have
    storage names that are equal after lower-casing. *)
Theorem createEntityFromAst_storage_names (b b' : Binding) (node : Node) :
  createEntityFromAst b node = (b', None) →
  ∃ e, b' = withEntities b (Entities b ++ [e]) ∧
       NoDup ((λ p, ToLower (ObName p)) <$> Properties e) ∧
       ∀ p, p ∈ Properties e → propertyStorageName p = Some (ObName p).
Proof.
  intros (e & He & ->)%createEntityFromAst_Ok. exists e. split; [done|].
  by apply (entityFromAst_storage_names (currentEntityName b) node).
Qed.

Lemma keptField_resolved entity f :
  match resolveField entity f with
  | Ok (Some q) => keptField f = Some (Name q, GoType q)
  | Ok None => keptField f = None
  | Err _ => True
  end.
Proof.
  destruct (resolveField entity f) as [[q|]|] eqn:Hr; [| |done].
  - apply resolveField_kept in Hr
      as (n & m & Hn & Hm & Ht & _ & <- & _ & _ & ->).
    unfold keptField. rewrite Hn, Hm.
    by rewrite bool_decide_eq_false_2 by (by rewrite Ht; intros [? ?]).
  - revert Hr. rewrite resolveField_unfold. unfold keptField.
    destruct (Names f) as [|n [|n' ns]]; [done| |done].
    destruct (fieldAnnotations f) as [m|]; [|done].
    case_bool_decide; [done|]. cbv zeta.
    destruct (setType _ (FType f)) as [p1|]; [|done]. rsimpl.
    by destruct (setObFlags p1).
Qed.

(** The properties of an entity that is built, by the fields. *)
Lemma entityFromAst_order name fields children e :
  entityFromAst name (StructType fields children) = Ok e →
  (λ p, (Name p, GoType p)) <$> Properties e = omap keptField fields.
Proof.
  intros He.
  apply entityFromAst_Ok in He
    as (fields' & children' & st & [= <- <-] & Hst & Hne & Hcase).
  assert ((λ p, (Name p, GoType p)) <$> Properties st.1 = omap keptField fields)
    as Hord.
  { pose proof (fieldLoop_inv _ _ _ Hst) as Hinv. revert Hst.
    apply (fieldLoop_invariant (λ fs st,
      EName st.1 = name ∧
      (λ p, (Name p, GoType p)) <$> Properties st.1 = omap keptField fs)).
    - done.
    - intros fs st0 f st1 [Hname Hord]. rewrite fieldStep_halves, Hname.
      rewrite omap_app. cbn [omap list_omap].
      pose proof (keptField_resolved (name) f) as Hk.
      destruct (resolveField _ f) as [[q|]|]; [| |done].
      + destruct st0 as [e0 names0], st1 as [e1 names1]. cbn [fst snd] in *.
        intros (n & _ & _ & _ & Hn' & Hprops & _)%acceptProperty_Ok.
        rewrite Hk, Hprops, fmap_app, Hord. split; [congruence|done].
      + intros [= <-]. rewrite Hk. cbn. by rewrite app_nil_r. }
  destruct Hcase as [[_ ->]|(_ & i & c & Hc & _ & ->)]; [apply Hord|].
  cbn [adoptId Properties withProperties withIdProperty].
  rewrite fmap_alter_same by done. apply Hord.
Qed.

(** X13: the properties of an entity that is built are the kept fields of
    the struct, one property per field, in the order of declaration, each
    with the declared name and the declared type text; [transient] fields
    leave no trace. *)
Theorem createEntityFromAst_order (b b' : Binding) (fields : list Field)
    (children : list Node) :
  createEntityFromAst b (StructType fields children) = (b', None) →
  ∃ e, b' = withEntities b (Entities b ++ [e]) ∧
       (λ p, (Name p, GoType p)) <$> Properties e = omap keptField fields.
Proof.
  intros (e & He & ->)%createEntityFromAst_Ok. exists e. split; [done|].
  by apply (entityFromAst_order (currentEntityName b) _ children).
Qed.

(** X14: an [id] annotation wins over the name convention: when the build
    succeeds and a kept field carries the [id] annotation, that field is the
    identity property (no lookup by name takes place). *)
Theorem createEntityFromAst_explicit_id (b b' : Binding) (fields : list Field)
    (children : list Node) (f : Field) (n : string) :
  createEntityFromAst b (StructType fields children) = (b', None) →
  f ∈ fields → keptWithId f n →
  ∃ e, b' = withEntities b (Entities b ++ [e]) ∧ idPropertyName e = n.
Proof.
  intros (e & He & ->)%createEntityFromAst_Ok Hf Hk. exists e. split; [done|].
  apply entityFromAst_Ok in He
    as (fields' & children' & st & [= <- <-] & Hst & Hne & Hcase).
  destruct (fieldLoop_id_field _ _ _ f n Hst Hf Hk) as [[i Hi] Hn].
  destruct Hcase as [[_ ->]|(Hnone & _)]; [done | congruence].
Qed.

End Built.

Lemma createEntityFromAst_no_properties_witness :
  let f := {| Names := ["Cache"]; FType := "bool"; Tag := Some (rawTag "transient") |} in
  let b := withCurrentEntityName newBinding "Book" in
  @transientField AsciiStrings f ∧
  @createEntityFromAst AsciiStrings b (StructType [f; f] []) =
    (b, Some (ErrNoProperties "Book")).
Proof.
  assert (@transientField AsciiStrings
            {| Names := ["Cache"]; FType := "bool";
               Tag := Some (rawTag "transient") |}) as Hf.
  { eexists _, _. split_and!; [reflexivity | reflexivity | by eexists]. }
  split; [done|].
  apply (@createEntityFromAst_no_properties AsciiStrings
           (withCurrentEntityName newBinding "Book")).
  by repeat constructor.
Defined.

Lemma createEntityFromAst_invalid_names_witness :
  let f := {| Names := ["X"; "Y"]; FType := "int"; Tag := None |} in
  let b := withCurrentEntityName newBinding "Point" in
  length (Names f) ≠ 1%nat ∧
  @createEntityFromAst AsciiStrings b (StructType [f] []) =
    (b, Some (ErrInvalidNames "Point" 2)).
Proof.
  split; [discriminate|].
  refine (proj2 (@createEntityFromAst_invalid_names AsciiStrings
                   (withCurrentEntityName newBinding "Point") [] []
                   {| Names := ["X"; "Y"]; FType := "int"; Tag := None |} [] _)
            _ _); [discriminate | reflexivity].
Defined.

Lemma createEntityFromAst_identity_witness :
  let fields :=
    [ {| Names := ["Id"]; FType := "uint64"; Tag := None |};
      {| Names := ["Name"]; FType := "string"; Tag := Some (rawTag "unique") |} ] in
  let b := withCurrentEntityName newBinding "User" in
  ∃ b' e idp,
    @createEntityFromAst AsciiStrings b (StructType fields []) = (b', None) ∧
    Entities b' = [e] ∧ EName e = "User" ∧ IdProperty e = Some 0%nat ∧
    Properties e !! 0%nat = Some idp ∧ "ID" ∈ ObFlags idp.
Proof.
  intros fields b.
  eassert (@createEntityFromAst AsciiStrings b (StructType fields []) = (_, None))
    as H by (vm_compute; reflexivity).
  destruct (@createEntityFromAst_identity AsciiStrings _ _ _ H)
    as (e & i & idp & Hb & Hname & Hi & Hidp & Hflag).
  eexists _, e, idp. split; [exact H|].
  apply (f_equal Entities) in Hb. cbn in Hb. injection Hb as <-.
  cbn in Hi. injection Hi as <-.
  split_and!; [done | done | done | done |]. by apply (Hflag 0%nat idp).
Defined.

Lemma createEntityFromAst_storage_names_witness :
  let fields :=
    [ {| Names := ["Id"]; FType := "uint64"; Tag := None |};
      {| Names := ["Name"]; FType := "string";
         Tag := Some (rawTag ("nameInDb:" +:+ quoted "full_name")) |} ] in
  let b := withCurrentEntityName newBinding "User" in
  ∃ b' e,
    @createEntityFromAst AsciiStrings b (StructType fields []) = (b', None) ∧
    Entities b' = [e] ∧
    NoDup ((λ p, GoStr.asciiToLower (ObName p)) <$> Properties e) ∧
    ObName <$> Properties e = ["Id"; "full_name"].
Proof.
  intros fields b.
  eassert (@createEntityFromAst AsciiStrings b (StructType fields []) = (_, None))
    as H by (vm_compute; reflexivity).
  destruct (@createEntityFromAst_storage_names AsciiStrings _ _ _ H)
    as (e & Hb & Hnodup & Hsn).
  eexists _, e. split; [exact H|].
  apply (f_equal Entities) in Hb. cbn in Hb. injection Hb as <-.
  split_and!; [done | exact Hnodup | reflexivity].
Defined.

Lemma createEntityFromAst_order_witness :
  let fields :=
    [ {| Names := ["Id"]; FType := "uint64"; Tag := None |};
      {| Names := ["Cache"]; FType := "bool"; Tag := Some (rawTag "transient") |};
      {| Names := ["Name"]; FType := "string"; Tag := None |} ] in
  let b := withCurrentEntityName newBinding "User" in
  ∃ b' e,
    @createEntityFromAst AsciiStrings b (StructType fields []) = (b', None) ∧
    Entities b' = [e] ∧
    (λ p, (Name p, GoType p)) <$> Properties e =
      [("Id", "uint64"); ("Name", "string")].
Proof.
  intros fields b.
  eassert (@createEntityFromAst AsciiStrings b (StructType fields []) = (_, None))
    as H by (vm_compute; reflexivity).
  destruct (@createEntityFromAst_order AsciiStrings _ _ _ _ H) as (e & Hb & Hord).
  eexists _, e. split; [exact H|].
  apply (f_equal Entities) in Hb. cbn in Hb. injection Hb as <-.
  split; [done|]. by rewrite Hord.
Defined.

Lemma createEntityFromAst_explicit_id_witness :
  let key := {| Names := ["Key"]; FType := "uint64"; Tag := Some (rawTag "id") |} in
  let fields := [ {| Names := ["Id"]; FType := "uint64"; Tag := None |}; key ] in
  let b := withCurrentEntityName newBinding "User" in
  ∃ b' e,
    @createEntityFromAst AsciiStrings b (StructType fields []) = (b', None) ∧
    key ∈ fields ∧ @keptWithId AsciiStrings key "Key" ∧
    Entities b' = [e] ∧ idPropertyName e = "Key".
Proof.
  intros key fields b.
  eassert (@createEntityFromAst AsciiStrings b (StructType fields []) = (_, None))
    as H by (vm_compute; reflexivity).
  assert (key ∈ fields) as Hin by (right; left).
  assert (@keptWithId AsciiStrings key "Key") as Hk.
  { split; [done|]. eexists. split_and!; [reflexivity | by eexists | reflexivity]. }
  destruct (@createEntityFromAst_explicit_id AsciiStrings _ _ _ _ key "Key" H Hin Hk)
    as (e & Hb & Hn).
  eexists _, e. split_and!; [exact H | done | done | | done].
  apply (f_equal Entities) in Hb. cbn in Hb. by injection Hb as <-.
Defined.

(** ** The discovery pass *)

Section Discovery.
Context {GS : GoStrings}.

Lemma walk_stuck (b : Binding) (node : Node) :
  err b ≠ None → walk entityLoader b node = b.
Proof. intros Hb. by rewrite walk_unfold, entityLoader_stuck. Qed.

(** Nothing happens at or below a node the switch of [entityLoader] does not
    list. *)
Lemma walk_cutOff (b : Binding) (node : Node) :
  cutOff node = true → walk entityLoader b node = b.
Proof.
  intros Hc. rewrite walk_unfold. unfold entityLoader.
  case_bool_decide; [done|]. by destruct node.
Qed.

Lemma foldl_walk_cutOff (b : Binding) (l : list Node) :
  Forall (λ node, cutOff node = true) l → foldl (walk entityLoader) b l = b.
Proof. induction 1; cbn [foldl]; [done|]. by rewrite walk_cutOff. Qed.

Lemma entityLoader_Nil (b : Binding) : (entityLoader b Nil).1 = b.
Proof. unfold entityLoader. by case_bool_decide. Qed.

(** The walk of a type specification that holds a struct type. *)
Lemma walk_TypeSpec (b : Binding) (name : string) (fields : list Field)
    (l1 l2 l3 : list Node) :
  err b = None →
  Forall (λ node, cutOff node = true) l1 →
  Forall (λ node, cutOff node = true) l2 →
  Forall (λ node, cutOff node = true) l3 →
  walk entityLoader b (TypeSpec name (l1 ++ StructType fields l2 :: l3)) =
    match (if bool_decide (name = "") then Err ErrUnnamedStruct
           else entityFromAst name (StructType fields l2)) with
    | Ok e => {| Package := Package b; Entities := Entities b ++ [e];
                 currentEntityName := ""; err := None |}
    | Err x => {| Package := Package b; Entities := Entities b;
                  currentEntityName := ""; err := Some x |}
    end.
Proof.
  intros Hb H1 H2 H3. rewrite walk_unfold. cbn [children].
  assert (entityLoader b (TypeSpec name (l1 ++ StructType fields l2 :: l3))
          = (withCurrentEntityName b name, true)) as ->.
  { unfold entityLoader. by rewrite bool_decide_eq_false_2 by (by intros []). }
  cbn [fst snd]. rewrite foldl_app, (foldl_walk_cutOff _ l1) by done.
  cbn [foldl].
  assert (walk entityLoader (withCurrentEntityName b name) (StructType fields l2)
          = if bool_decide (name = "")
            then withErr (withCurrentEntityName b name) (Some ErrUnnamedStruct)
            else let r := createEntityFromAst (withCurrentEntityName b name)
                            (StructType fields l2) in
                 withCurrentEntityName (withErr r.1 r.2) "") as ->.
  { rewrite walk_unfold. cbn [children]. unfold entityLoader.
    rewrite (bool_decide_eq_false_2 (err (withCurrentEntityName b name) ≠ None))
      by (by intros []).
    cbn [currentEntityName withCurrentEntityName].
    case_bool_decide as Hname; cbn [fst snd]; [done|].
    rewrite (foldl_walk_cutOff _ l2) by done.
    by case_bool_decide. }
  rewrite (foldl_walk_cutOff _ l3), entityLoader_Nil by done.
  case_bool_decide as Hname.
  - subst name. by destruct b.
  - unfold createEntityFromAst. cbn [currentEntityName withCurrentEntityName].
    destruct (entityFromAst name _) as [e|x]; destruct b; cbn in *; by subst.
Qed.

(** X15: the walk of the type specification [name struct { fields }]: the
    name is taken from the specification and handed to
    [createEntityFromAst] at the struct type; the entity is appended, or the
    error recorded and the entities left alone; either way the pending name
    is cleared, and the package is not touched.  Nodes that the callback cuts
    off (the identifier, the field list, comments) play no part.  A
    specification with the empty name gives the unnamed-struct error. *)
Theorem walk_struct_declaration (b : Binding) (name : string)
    (fields : list Field) (l1 l2 l3 : list Node) :
  err b = None →
  Forall (λ node, cutOff node = true) l1 →
  Forall (λ node, cutOff node = true) l2 →
  Forall (λ node, cutOff node = true) l3 →
  walk entityLoader b (TypeSpec name (l1 ++ StructType fields l2 :: l3)) =
    match (if bool_decide (name = "") then Err ErrUnnamedStruct
           else entityFromAst name (StructType fields l2)) with
    | Ok e => {| Package := Package b; Entities := Entities b ++ [e];
                 currentEntityName := ""; err := None |}
    | Err x => {| Package := Package b; Entities := Entities b;
                  currentEntityName := ""; err := Some x |}
    end.
Proof. apply walk_TypeSpec. Qed.

Lemma walk_structDecl (b : Binding) (d : string * list Field) :
  err b = None → d.1 ≠ "" →
  walk entityLoader b (structDecl d) =
    match declared d with
    | Ok e => {| Package := Package b; Entities := Entities b ++ [e];
                 currentEntityName := ""; err := None |}
    | Err x => {| Package := Package b; Entities := Entities b;
                  currentEntityName := ""; err := Some x |}
    end.
Proof.
  intros Hb Hd. unfold structDecl. rewrite walk_unfold. cbn [children].
  assert (∀ c, entityLoader b (GenDecl c) = (b, true)) as ->.
  { intros c. unfold entityLoader.
    by rewrite bool_decide_eq_false_2 by (by intros []). }
  cbn [fst snd foldl].
  change [OtherNode []; StructType d.2 [OtherNode []]]
    with ([OtherNode []] ++ StructType d.2 [OtherNode []] :: []).
  rewrite (walk_TypeSpec b d.1 d.2 [OtherNode []] [OtherNode []] [])
    by (done || by repeat constructor).
  rewrite bool_decide_eq_false_2, entityLoader_Nil by done. done.
Qed.

Lemma foldl_structDecl_ok (ds : list (string * list Field)) (es : list Entity)
    (b : Binding) :
  err b = None →
  Forall2 (λ d e, d.1 ≠ "" ∧ declared d = Ok e) ds es →
  let b' := foldl (walk entityLoader) b (structDecl <$> ds) in
  Package b' = Package b ∧ Entities b' = Entities b ++ es ∧ err b' = None.
Proof.
  intros Hb Hall. revert b Hb.
  induction Hall as [|d e ds es [Hd He] _ IH]; intros b Hb; cbn [fmap list_fmap foldl].
  - by rewrite app_nil_r.
  - cbv zeta in IH. rewrite walk_structDecl, He by done.
    destruct (IH {| Package := Package b; Entities := Entities b ++ [e];
                    currentEntityName := ""; err := None |} eq_refl)
      as (HP & HE & Herr).
    cbn [Package Entities] in HP, HE.
    by rewrite HP, HE, Herr, <- (assoc_L (++)).
Qed.

Lemma foldl_walk_stuck (b : Binding) (l : list Node) :
  err b ≠ None → foldl (walk entityLoader) b l = b.
Proof.
  intros Hb. induction l as [|x l IH]; cbn [foldl]; [done|].
  by rewrite walk_stuck.
Qed.

(** No invocation of the callback touches the package name. *)
Lemma walk_Package (b : Binding) (node : Node) :
  Package (walk entityLoader b node) = Package b.
Proof.
  apply (walk_preserves entityLoader (λ b1 b2, Package b2 = Package b1)).
  - done.
  - intros ??? H1 H2. by rewrite H2.
  - intros s n. unfold entityLoader. case_bool_decide; [done|].
    destruct n; try done. case_bool_decide; [done|].
    unfold createEntityFromAst. by destruct (entityFromAst _ _).
Qed.

Lemma createFromAst_sourceFile (b : Binding) (pkg : string)
    (ds : list (string * list Field)) :
  err b = None →
  (createFromAst b (sourceFile pkg ds)).1 =
    foldl (walk entityLoader) (withPackage b pkg) (structDecl <$> ds).
Proof.
  intros Hb. unfold createFromAst, sourceFile. cbn [fileName fileRoot fst].
  rewrite walk_unfold. cbn [children].
  assert (∀ c, entityLoader (withPackage b pkg) (File c) = (withPackage b pkg, true))
    as ->.
  { intros c. unfold entityLoader.
    by rewrite bool_decide_eq_false_2 by (by intros []). }
  cbn [fst snd foldl]. rewrite walk_cutOff by done. apply entityLoader_Nil.
Qed.

(** X16: the pass over a source file made of struct declarations.  When every
    declaration gives an entity, [createFromAst] returns no error and has
    appended the entities in the order of the declarations; when one fails,
    it returns the error of the first that fails and has appended the
    entities of the declarations before it, and no other: what follows the
    failing declaration is not looked at.  The package name is the one of the
    file. *)
Theorem createFromAst_declarations (b : Binding) (pkg : string)
    (ds : list (string * list Field)) :
  err b = None →
  let r := createFromAst b (sourceFile pkg ds) in
  Package r.1 = pkg ∧
  (∀ es, Forall2 (λ d e, d.1 ≠ "" ∧ declared d = Ok e) ds es →
         r.2 = None ∧ Entities r.1 = Entities b ++ es) ∧
  (∀ pre d post es x,
     ds = pre ++ d :: post →
     Forall2 (λ d e, d.1 ≠ "" ∧ declared d = Ok e) pre es →
     d.1 ≠ "" → declared d = Err x →
     r.2 = Some x ∧ Entities r.1 = Entities b ++ es).
Proof.
  intros Hb r.
  assert (r.2 = err r.1) as Hr by done.
  assert (r.1 = foldl (walk entityLoader) (withPackage b pkg) (structDecl <$> ds))
    as Hr1 by (by apply createFromAst_sourceFile).
  assert (Package r.1 = pkg) as HP
    by (unfold r, createFromAst; cbn [fst]; by rewrite walk_Package).
  revert HP. rewrite Hr, Hr1. clear Hr Hr1 r. intros HP. split_and!.
  - done.
  - intros es Hall.
    destruct (foldl_structDecl_ok ds es (withPackage b pkg) Hb Hall)
      as (_ & HE & Herr).
    by rewrite Herr, HE.
  - intros pre d post es x -> Hall Hd Hx.
    rewrite fmap_app, foldl_app. cbn [fmap list_fmap foldl].
    destruct (foldl_structDecl_ok pre es (withPackage b pkg) Hb Hall)
      as (_ & HE & Herr).
    rewrite walk_structDecl, Hx by done.
    rewrite foldl_walk_stuck by done. by rewrite HE.
Qed.

(** The types of the properties of an entity that is built. *)
Lemma resolveField_typed entity f q :
  resolveField entity f = Ok (Some q) → typed q.
Proof.
  intros (n & m & p1 & _ & _ & _ & H1 & H2)%resolveField_steps.
  apply setType_effect in H1 as (ob & fb & Hb & Hgo & Hfb & _ & _ & Hob & Hlong);
    [|done].
  pose proof (setObFlags_effect _ _ H2) as (_ & Hob' & Hfb' & _).
  apply setObFlags_preserves in H2 as (_ & _ & _ & _ & Hgo').
  exists ob, fb. rewrite Hgo', Hgo, Hfb', Hfb, Hob', Hob. split_and!; [done..|].
  destruct (hasAnnotation _ "date"); [right; split; [apply Hlong|]; eauto|].
  destruct (hasAnnotation _ "link"); [right; split; [apply Hlong|]; eauto|].
  by left.
Qed.

Lemma entityFromAst_wellFormed name node e :
  name ≠ "" → entityFromAst name node = Ok e → wellFormed e.
Proof.
  intros Hname He.
  destruct (entityFromAst_identity _ _ _ He) as (Hn & Hid).
  destruct (entityFromAst_storage_names _ _ _ He) as (Hnodup & Hsn).
  apply entityFromAst_Ok in He
    as (fields & children & st & -> & Hst & Hne & Hcase).
  pose proof (fieldLoop_inv _ _ _ Hst) as Hinv.
  assert (∀ p, p ∈ Properties st.1 → typed p) as Hty.
  { intros p Hp. destruct (inv_from _ _ _ Hinv p Hp) as (f & q & _ & Hq & ->).
    apply resolveField_typed in Hq. exact Hq. }
  split_and!; [congruence | | done | done |].
  - destruct Hcase as [[_ ->]|(_ & i & c & Hc & _ & ->)]; [done|].
    cbn [adoptId Properties withProperties withIdProperty].
    intros Hnil%(f_equal length). rewrite length_alter in Hnil.
    by destruct (Properties st.1).
  - intros p Hp. split; [|by apply Hsn].
    destruct Hcase as [[_ ->]|(_ & i & c & Hc & _ & ->)]; [by apply Hty|].
    cbn [adoptId Properties withProperties withIdProperty] in Hp.
    apply list_elem_of_lookup_1 in Hp as [j Hj].
    destruct (decide (j = i)) as [->|Hji].
    + rewrite list_lookup_alter_eq, Hc in Hj. injection Hj as <-.
      apply (Hty c). by eapply list_elem_of_lookup_2.
    + rewrite list_lookup_alter_ne in Hj by done.
      apply Hty. by eapply list_elem_of_lookup_2.
Qed.

(** X17: whatever the syntax tree, [createFromAst] sets the package name to
    the one of the file and only adds entities that are well formed: named,
    with at least one property, with an identity property that alone bears
    the [ID] flag, with storage names that are pairwise distinct after
    lower-casing, and with every property typed by the table. *)
Theorem createFromAst_wellFormed (b : Binding) (f : file) :
  Forall wellFormed (Entities b) →
  Package (createFromAst b f).1 = fileName f ∧
  Forall wellFormed (Entities (createFromAst b f).1).
Proof.
  intros Hb. unfold createFromAst. cbn [fst].
  pose proof (walk_preserves entityLoader
    (λ b1 b2, Package b2 = Package b1 ∧
              (Forall wellFormed (Entities b1) → Forall wellFormed (Entities b2))))
    as Hwalk.
  destruct (Hwalk) with (node := fileRoot f) (s := withPackage b (fileName f))
    as [HP HE].
  - done.
  - intros s1 s2 s3 [H1 H1'] [H2 H2']. split; [congruence | eauto].
  - intros s node. unfold entityLoader. case_bool_decide; [done|].
    destruct node; try done. case_bool_decide as Hname; [done|].
    unfold createEntityFromAst.
    destruct (entityFromAst _ _) as [e|x] eqn:He; [|done].
    cbn. split; [done|]. intros Hs. apply Forall_app. split; [done|].
    constructor; [|done]. by eapply entityFromAst_wellFormed.
  - split; [exact HP | by apply HE].
Qed.

End Discovery.

Lemma walk_struct_declaration_witness :
  let fields := [ {| Names := ["Id"]; FType := "uint64"; Tag := None |} ] in
  err newBinding = None ∧
  Forall (λ node, cutOff node = true) [OtherNode []] ∧
  ∃ e, @walk Binding (@entityLoader AsciiStrings) newBinding
         (TypeSpec "User" ([OtherNode []] ++ StructType fields [OtherNode []] :: []))
       = {| Package := ""; Entities := [e]; currentEntityName := ""; err := None |}.
Proof.
  intros fields.
  assert (Forall (λ node, cutOff node = true) [OtherNode []]) as Hcut
    by (by repeat constructor).
  split_and!; [done..|].
  eassert (@entityFromAst AsciiStrings "User" (StructType fields [OtherNode []])
           = Ok _) as He by (vm_compute; reflexivity).
  eexists.
  rewrite (@walk_struct_declaration AsciiStrings newBinding "User" fields
             [OtherNode []] [OtherNode []] [] eq_refl Hcut Hcut (Forall_nil_2 _)).
  rewrite bool_decide_eq_false_2 by done. rewrite He. reflexivity.
Defined.

Lemma createFromAst_declarations_witness :
  let user := ("User", [ {| Names := ["Id"]; FType := "uint64"; Tag := None |} ]) in
  let empty := ("Empty", []) in
  let ds := [user; empty; user] in
  let r := @createFromAst AsciiStrings newBinding (sourceFile "model" ds) in
  err newBinding = None ∧
  ∃ e, @declared AsciiStrings user = Ok e ∧
       @declared AsciiStrings empty = Err (ErrNoProperties "Empty") ∧
       Package r.1 = "model" ∧
       r.2 = Some (ErrNoProperties "Empty") ∧ Entities r.1 = [e].
Proof.
  intros user empty ds r. split; [done|].
  eassert (@declared AsciiStrings user = Ok _) as He by (vm_compute; reflexivity).
  assert (@declared AsciiStrings empty = Err (ErrNoProperties "Empty")) as Hx
    by reflexivity.
  eexists. split; [exact He|]. split; [exact Hx|].
  destruct (@createFromAst_declarations AsciiStrings newBinding "model" ds eq_refl)
    as (HP & _ & Hfail).
  split; [exact HP|].
  apply (Hfail [user] empty [user]); [done | | done | exact Hx].
  constructor; [|constructor]. split; [done | exact He].
Defined.

Lemma createFromAst_wellFormed_witness :
  let user := ("User", [ {| Names := ["Id"]; FType := "uint64"; Tag := None |};
                         {| Names := ["Name"]; FType := "string"; Tag := None |} ]) in
  let r := @createFromAst AsciiStrings newBinding (sourceFile "model" [user]) in
  Forall (@wellFormed AsciiStrings) (Entities newBinding) ∧
  ∃ e, Entities r.1 = [e] ∧ @wellFormed AsciiStrings e ∧ Package r.1 = "model".
Proof.
  intros user r.
  assert (Forall (@wellFormed AsciiStrings) (Entities newBinding)) as Hnil
    by constructor.
  split; [exact Hnil|].
  destruct (@createFromAst_wellFormed AsciiStrings newBinding
              (sourceFile "model" [user]) Hnil) as [HP Hwf].
  eassert (Entities r.1 = [_]) as He by (vm_compute; reflexivity).
  eexists. split; [exact He|]. split; [|exact HP].
  change (Forall (@wellFormed AsciiStrings) (Entities r.1)) in Hwf.
  rewrite He in Hwf. exact (proj1 (Forall_singleton _ _) Hwf).
Defined.

(** ** The queries of the template *)

Section TemplateQueries.
Context {GS : GoStrings}.

Lemma baseType_cases t ob fb :
  baseType t = Some (ob, fb) → (t, ob, fb) ∈ typeTable.
Proof.
  unfold baseType, typeTable. rewrite !elem_of_cons, elem_of_nil.
  repeat (case_bool_decide; cbn [orb];
          [intros [= <- <-]; subst t; tauto |]).
  done.
Qed.

(** On a typed property the test of [UsesFbUtils] is the test of the
    physical type, and of the declared type. *)
Lemma usesOffset_typed (p : Property) :
  typed p →
  (usesOffset p = true ↔ FbType p = "UOffsetT") ∧
  (usesOffset p = true ↔ GoType p = "string" ∨ GoType p = "[]byte").
Proof.
  intros (ob & fb & Hb & Hfb & Hob). unfold usesOffset. rewrite Hfb. clear Hfb.
  apply baseType_cases in Hb. unfold typeTable in Hb.
  rewrite !elem_of_cons, elem_of_nil in Hb.
  destruct_or!; try done; injection Hb as Ht -> ->; rewrite Ht;
    destruct_and?; destruct_or?; try done;
    match goal with H : ObType p = _ |- _ => rewrite H end;
    rewrite !ToLower_ascii by reflexivity;
    vm_compute; repeat split; intros; destruct_or?;
    first [reflexivity | discriminate | by left | by right].
Qed.

(** X18: on a binding whose properties are typed by the table (as those
    built by the generator are), [UsesFbUtils] answers whether some property
    of some entity has the physical type [UOffsetT], that is, whether some
    property is declared [string] or [[]byte]; [date] and [link] properties
    never count. *)
Theorem UsesFbUtils_offsets (b : Binding) :
  (∀ e p, e ∈ Entities b → p ∈ Properties e → typed p) →
  (UsesFbUtils b = true ↔
     ∃ e p, e ∈ Entities b ∧ p ∈ Properties e ∧ FbType p = "UOffsetT") ∧
  (UsesFbUtils b = true ↔
     ∃ e p, e ∈ Entities b ∧ p ∈ Properties e ∧
            (GoType p = "string" ∨ GoType p = "[]byte")) ∧
  (UsesFbUtils b = true →
     ∃ e p, e ∈ Entities b ∧ p ∈ Properties e ∧
            ObType p ≠ "Date" ∧ ObType p ≠ "Relation").
Proof.
  intros Hty.
  assert (UsesFbUtils b = true ↔
          ∃ e p, e ∈ Entities b ∧ p ∈ Properties e ∧ usesOffset p = true) as Huse.
  { unfold UsesFbUtils. rewrite existsb_exists. split.
    - intros (e & He%list_elem_of_In & (p & Hp%list_elem_of_In & Hu)%existsb_exists).
      eauto.
    - intros (e & p & He & Hp & Hu). exists e.
      split; [by apply list_elem_of_In|]. apply existsb_exists. exists p.
      split; [by apply list_elem_of_In | done]. }
  split_and!.
  - rewrite Huse. split; intros (e & p & He & Hp & Hu); exists e, p;
      destruct (usesOffset_typed p (Hty e p He Hp)) as [[H1 H2] _];
      split_and!; auto.
  - rewrite Huse. split; intros (e & p & He & Hp & Hu); exists e, p;
      destruct (usesOffset_typed p (Hty e p He Hp)) as [_ [H1 H2]];
      split_and!; auto.
  - rewrite Huse. intros (e & p & He & Hp & Hu). exists e, p.
    split_and!; [done..| |]; intros Hob; revert Hu; unfold usesOffset;
      rewrite Hob, !ToLower_ascii by reflexivity; by vm_compute.
Qed.

(** X19: [HasNonIdProperty] on an entity whose identity is one of its
    properties answers whether the entity has more than one property; on an
    entity without identity, whether it has a property at all. *)
Theorem HasNonIdProperty_count (e : Entity) :
  (∀ i, IdProperty e = Some i → (i < length (Properties e))%nat →
        HasNonIdProperty e = bool_decide (1 < length (Properties e))%nat) ∧
  (IdProperty e = None →
   HasNonIdProperty e = bool_decide (Properties e ≠ [])).
Proof.
  unfold HasNonIdProperty. split.
  - intros i Hi Hlt. rewrite Hi. case_bool_decide as Hn.
    + apply existsb_exists. exists (if decide (i = 0%nat) then 1%nat else 0%nat).
      split; [apply in_seq; case_decide; lia|].
      rewrite bool_decide_eq_false_2; [done|]. intros [= Heq].
      destruct (decide (i = 0%nat)); lia.
    + assert (length (Properties e) = 1%nat) as -> by lia.
      assert (i = 0%nat) as -> by lia.
      cbn. by rewrite bool_decide_eq_true_2.
  - intros ->. destruct (Properties e) as [|p l]; cbn [length seq existsb].
    + by rewrite bool_decide_eq_false_2 by (by intros []).
    + by rewrite bool_decide_eq_false_2, bool_decide_eq_true_2.
Qed.

End TemplateQueries.

Lemma UsesFbUtils_offsets_witness :
  let user := ("User", [ {| Names := ["Id"]; FType := "uint64"; Tag := None |};
                         {| Names := ["Name"]; FType := "string"; Tag := None |} ]) in
  let b := (@createFromAst AsciiStrings newBinding (sourceFile "model" [user])).1 in
  (∀ e p, e ∈ Entities b → p ∈ Properties e → typed p) ∧
  @UsesFbUtils AsciiStrings b = true ∧
  ∃ e p, e ∈ Entities b ∧ p ∈ Properties e ∧ FbType p = "UOffsetT".
Proof.
  intros user b.
  assert (∀ e p, e ∈ Entities b → p ∈ Properties e → typed p) as Hty.
  { eassert (Entities b = [_]) as HE by (vm_compute; reflexivity).
    intros e p He Hp. rewrite HE in He.
    apply list_elem_of_singleton in He as ->.
    cbn [Properties] in Hp. rewrite !elem_of_cons, elem_of_nil in Hp.
    destruct Hp as [->|[->|[]]]; eexists _, _;
      (split_and!; [vm_compute; reflexivity | reflexivity | by left]). }
  split; [exact Hty|].
  assert (@UsesFbUtils AsciiStrings b = true) as Hu by (vm_compute; reflexivity).
  split; [exact Hu|].
  by apply (proj1 (@UsesFbUtils_offsets AsciiStrings b Hty)).
Defined.

Lemma HasNonIdProperty_count_witness :
  let p := newProperty "User" "Id" in
  let e := withIdProperty (withProperties (newEntity "User") [p]) (Some 0%nat) in
  IdProperty e = Some 0%nat ∧ (0 < length (Properties e))%nat ∧
  HasNonIdProperty e = false.
Proof.
  intros p e. split; [done|]. split; [cbn; lia|].
  rewrite (proj1 (HasNonIdProperty_count e) 0%nat eq_refl) by (cbn; lia).
  reflexivity.
Defined.
